(** * crypto_analyzer: candle synchronisation and return distributions

    A shallow embedding of [backtest.py].  The program keeps one CSV file of
    daily candles per market, extends it from the exchange's REST endpoint
    and bins percentage returns into a fixed-width histogram.

    Conventions of the embedding:
    - a timestamp is a day number ([Z], days since 1970-01-01);
    - a price or a return is an exact rational ([Q]) and a missing value
      (pandas' NaN) is [None].  Every finite float is a rational, so the
      values are those of the program; its operations round, those of the
      embedding do not.  With the default bin size 1, the only one the
      program passes, the bounds, the edges and the counts of the histogram
      are exact in the program as well (division and multiplication by 1,
      floor, ceiling and integer steps do not round), and the percentages
      agree up to rounding.  With a bin size that is no binary fraction the
      program's bounds and edges drift; [floor_to_binary64] and its
      companions compute them as the program does;
    - the file system is a finite map from file names to the rows of the CSV
      file; requests, sleeps, prints and file writes are recorded in a trace;
    - an uncaught Python exception is the [Raise] result. *)

From Stdlib Require Import ZArith QArith Qround Qabs List Ascii String Lia Lqa.
From Stdlib Require Import DecimalString DecimalN.
From Stdlib Require Import PrimFloat FloatOps SpecFloat Uint63.
From stdpp Require Import gmap strings sorting.

Local Open Scope Z_scope.
Local Open Scope list_scope.

(** ** Data frames of candles *)

Record Candle := mkCandle {
  candle_date_time_kst : Z;
  trade_price : Q
}.

(** The rows of a frame, oldest first once the program has reversed the
    exchange's answer.  [pd.DataFrame()] is the frame without rows. *)
Abbreviation DataFrame := (list Candle).

Definition empty (df : DataFrame) : bool :=
  match df with [] => true | _ :: _ => false end.

(** [df['candle_date_time_kst'].max()] of a frame with rows. *)
Definition max_date (df : DataFrame) : Z :=
  match df with
  | [] => 0
  | c :: rest => fold_left Z.max (map candle_date_time_kst rest) (candle_date_time_kst c)
  end.

(** [df[df['candle_date_time_kst'] > last_date]] *)
Definition newer_than (last_date : Z) (df : DataFrame) : DataFrame :=
  List.filter (fun c => last_date <? candle_date_time_kst c) df.

(** ** Strings of the program *)

(** [coin.split(' ')[0]] *)
Fixpoint split_0 (coin : string) : string :=
  match coin with
  | EmptyString => EmptyString
  | String c rest =>
      if Ascii.eqb c " " then EmptyString else String c (split_0 rest)
  end.

Definition file_name (coin : string) : string :=
  (split_0 coin ++ "_data.csv")%string.

(** ** The exchange, the trace and the file system *)

Record MarketInfo := mkMarket { market : string; korean_name : string }.

Record Response (A : Type) := mkResponse { status_code : Z; json : A }.
Arguments mkResponse {A} _ _.
Arguments status_code {A} _.
Arguments json {A} _.

(** What the exchange answers to the [n]-th GET of a run (counting from 0). *)
Record Source := mkSource {
  market_all : nat -> Response (list MarketInfo);
  candles_days : nat -> string -> Z -> option Z -> Response DataFrame
}.

Inductive Url :=
| MarketAll
| CandlesDays (market : string) (count : Z) (to : option Z).

Inductive Msg :=
| FailedCoinList (status : Z)
| NoDataReturned (coin : string)
| RateLimitExceeded (coin : string)
| FailedToFetch (coin : string) (status : Z)
| NoSavedData (coin : string)
| Updating (coin : string)
| FetchingAll (coin : string)
| NoNewData (coin : string)
| Updated (coin : string).

Inductive Event :=
| Get (url : Url)
| Sleep (seconds : Z)
| Printed (m : Msg)
| ToCsv (file : string).

Record World := mkWorld {
  trace : list Event;
  files : gmap string DataFrame
}.

Definition emit (e : Event) (w : World) : World :=
  mkWorld (trace w ++ [e]) (files w).

Definition is_get (e : Event) : bool :=
  match e with Get _ => true | _ => false end.

Definition is_sleep (e : Event) : bool :=
  match e with Sleep _ => true | _ => false end.

Definition is_write (e : Event) : bool :=
  match e with ToCsv _ => true | _ => false end.

(** Number of GETs issued so far. *)
Definition requests (w : World) : nat := length (List.filter is_get (trace w)).

Inductive Exception := AttributeError | ValueError.

Inductive Result (A : Type) :=
| Return (a : A)
| Raise (e : Exception).
Arguments Return {A} _.
Arguments Raise {A} _.

(** ** The synchroniser *)

Section Synchroniser.

Variable src : Source.

Definition fetch_coin_list (w : World) : list string * World :=
  let response := market_all src (requests w) in
  let w := emit (Get MarketAll) w in
  if status_code response =? 200 then
    let data := json response in
    (map (fun coin => (market coin ++ " (" ++ korean_name coin ++ ")")%string)
         (List.filter (fun coin => String.prefix "KRW" (market coin)) data), w)
  else ([], emit (Printed (FailedCoinList (status_code response))) w).

(** The [while retries > 0] loop of [fetch_historical_data].  Leaving the
    loop reaches the end of the function, whose value is Python's [None]:
    the result is [None] here, a frame is [Some df]. *)
Fixpoint fetch_loop (retries : nat) (coin : string) (count : Z) (to : option Z)
    (w : World) : option DataFrame * World :=
  match retries with
  | O => (None, w)
  | S retries' =>
      let response := candles_days src (requests w) (split_0 coin) count to in
      let w := emit (Get (CandlesDays (split_0 coin) count to)) w in
      if status_code response =? 200 then
        let df := json response in
        if negb (empty df) then (Some (rev df), w)
        else (Some [], emit (Printed (NoDataReturned coin)) w)
      else if status_code response =? 429 then
        let w := emit (Printed (RateLimitExceeded coin)) w in
        let w := emit (Sleep 10) w in
        fetch_loop retries' coin count to w
      else (Some [], emit (Printed (FailedToFetch coin (status_code response))) w)
  end.

Definition fetch_historical_data (coin : string) (count : Z) (to : option Z)
    (w : World) : option DataFrame * World :=
  fetch_loop 3 coin count to w.

(** A file of the store holds the header line and the rows of a frame; the
    program saves frames with rows only (line 88). *)
Definition load_coin_data (coin : string) (w : World) : DataFrame * World :=
  match files w !! file_name coin with
  | Some df => (df, w)
  | None => ([], emit (Printed (NoSavedData coin)) w)
  end.

Definition save_coin_data (coin : string) (df : DataFrame) (w : World) : World :=
  emit (ToCsv (file_name coin))
       (mkWorld (trace w) (<[file_name coin := df]> (files w))).

(** Lines 86-91: the tail of the loop body, shared by both branches.
    [new_data.empty] on [None] raises [AttributeError]. *)
Definition merge_and_save (coin : string) (existing_data : DataFrame)
    (new_data : option DataFrame) (w : World) : Result unit * World :=
  match new_data with
  | None => (Raise AttributeError, w)
  | Some new_data =>
      if negb (empty new_data) then
        let updated_data := existing_data ++ new_data in
        let w := save_coin_data coin updated_data w in
        (Return tt, emit (Printed (Updated coin)) w)
      else (Return tt, emit (Printed (NoNewData coin)) w)
  end.

(** The body of the [for coin in coins] loop.  [continue] is an early
    [Return].  A fetched frame has the ['candle_date_time_kst'] column
    exactly when it has rows, so the test of line 80 is [empty]. *)
Definition update_coin (coin : string) (w : World) : Result unit * World :=
  let w := emit (Printed (Updating coin)) w in
  let '(existing_data, w) := load_coin_data coin w in
  if empty existing_data then
    let w := emit (Printed (FetchingAll coin)) w in
    let '(new_data, w) := fetch_historical_data coin 200 None w in
    merge_and_save coin existing_data new_data w
  else
    let last_date := max_date existing_data in
    let '(new_data, w) := fetch_historical_data coin 200 (Some last_date) w in
    match new_data with
    | None => (Raise AttributeError, w)
    | Some new_data =>
        if empty new_data then (Return tt, emit (Printed (NoNewData coin)) w)
        else merge_and_save coin existing_data
               (Some (newer_than last_date new_data)) w
    end.

(** [for coin in coins: ...]: an exception leaves the loop. *)
Fixpoint for_coins (coins : list string) (w : World) : Result unit * World :=
  match coins with
  | [] => (Return tt, w)
  | coin :: rest =>
      match update_coin coin w with
      | (Return _, w) => for_coins rest w
      | (Raise e, w) => (Raise e, w)
      end
  end.

Definition update_all_coins (w : World) : Result unit * World :=
  let '(coins, w) := fetch_coin_list w in
  for_coins coins w.

End Synchroniser.

(** ** Floating-point columns *)

(** A cell of a numeric column: [None] is NaN. *)
Definition Float := option Q.

Definition NaN : Float := None.

Definition fbin (op : Q -> Q -> Q) (a b : Float) : Float :=
  match a, b with
  | Some x, Some y => Some (op x y)
  | _, _ => None
  end.

(** The cells of this embedding are finite: a quotient by a zero close,
    which is an infinity or NaN in the program, is not represented, and the
    statements about returns assume non-zero closes. *)
Definition fdiv := fbin Qdiv.
Definition fsub := fbin Qminus.
Definition fmul := fbin Qmult.

(** [Series.ffill()]: a NaN takes the last value seen before it. *)
Fixpoint ffill_from (prev : Float) (xs : list Float) : list Float :=
  match xs with
  | [] => []
  | Some x :: rest => Some x :: ffill_from (Some x) rest
  | None :: rest => prev :: ffill_from prev rest
  end.

Definition ffill (xs : list Float) : list Float := ffill_from NaN xs.

(** [Series.shift(1)] *)
Definition shift (xs : list Float) : list Float :=
  match xs with
  | [] => []
  | _ :: _ => NaN :: removelast xs
  end.

(** [Series.pct_change()] with the default [fill_method='pad']:
    [data = self.ffill(); data / data.shift(1) - 1]. *)
Definition pct_change (xs : list Float) : list Float :=
  let data := ffill xs in
  map (fun p => fsub (fdiv (fst p) (snd p)) (Some 1%Q)) (combine data (shift data)).

(** [column * 100] *)
Definition times_100 (xs : list Float) : list Float :=
  map (fun x => fmul x (Some 100%Q)) xs.

(** ** Calendar periods of [resample] *)

(** Day number of a civil date and back (proleptic Gregorian calendar). *)
Definition days_from_civil (y m d : Z) : Z :=
  let y := if m <=? 2 then y - 1 else y in
  let era := y / 400 in
  let yoe := y - era * 400 in
  let doy := (153 * (if 2 <? m then m - 3 else m + 9) + 2) / 5 + d - 1 in
  let doe := yoe * 365 + yoe / 4 - yoe / 100 + doy in
  era * 146097 + doe - 719468.

Definition civil_from_days (z : Z) : Z * Z * Z :=
  let z := z + 719468 in
  let era := z / 146097 in
  let doe := z - era * 146097 in
  let yoe := (doe - doe / 1460 + doe / 36524 - doe / 146096) / 365 in
  let y := yoe + era * 400 in
  let doy := doe - (365 * yoe + yoe / 4 - yoe / 100) in
  let mp := (5 * doy + 2) / 153 in
  let d := doy - (153 * mp + 2) / 5 + 1 in
  let m := if mp <? 10 then mp + 3 else mp - 9 in
  (if m <=? 2 then y + 1 else y, m, d).

(** A resampling rule: the index of the period a day falls in, and the
    label (a day number) pandas gives to a period. *)
Record Rule := mkRule { period_of : Z -> Z; label_of : Z -> Z }.

(** ['W-MON']: weeks that end on a Monday, labelled by that Monday.
    Day 4 (1970-01-05) is a Monday. *)
Definition W_MON : Rule :=
  mkRule (fun d => (d + 2) / 7) (fun k => 7 * k + 4).

(** ['M']: calendar months, labelled by their last day. *)
Definition M_END : Rule :=
  mkRule (fun d => let '(y, m, _) := civil_from_days d in 12 * y + (m - 1))
         (fun k => days_from_civil ((k + 1) / 12) ((k + 1) mod 12 + 1) 1 - 1).

(** ** The frame under analysis *)

(** The object [df] of an analysis: the rows read from the CSV file and the
    ['return'] column, [None] while the frame has no such column.  A frame
    has the columns of the CSV file also when it has no rows; the frame
    without columns that [load_coin_data] gives for a missing file is
    stopped by [analyze_and_visualize] before any analysis. *)
Record Frame := mkFrame {
  rows : DataFrame;
  return_col : option (list Float)
}.

(** What [analyze_periodic_distribution] hands back: the frame itself for
    ['daily'], a [Series] indexed by period label otherwise. *)
Inductive Analysis :=
| AFrame (df : Frame)
| ASeries (s : list (Z * Float)).

Definition min_date (df : DataFrame) : Z :=
  match df with
  | [] => 0
  | c :: rest => fold_left Z.min (map candle_date_time_kst rest) (candle_date_time_kst c)
  end.

(** The stable sort by timestamp that [resample] applies to its input. *)
Fixpoint insert_by_date (c : Candle) (df : DataFrame) : DataFrame :=
  match df with
  | [] => [c]
  | d :: rest =>
      if candle_date_time_kst d <=? candle_date_time_kst c
      then d :: insert_by_date c rest
      else c :: d :: rest
  end.

Definition sort_by_date (df : DataFrame) : DataFrame :=
  fold_left (fun acc c => insert_by_date c acc) df [].

(** [.last()] of one group: the ['trade_price'] of the last row of the
    period, NaN for a period without rows. *)
Definition last_in (r : Rule) (k : Z) (sorted : DataFrame) : Float :=
  match List.filter (fun c => period_of r (candle_date_time_kst c) =? k) (rev sorted) with
  | [] => NaN
  | c :: _ => Some (trade_price c)
  end.

(** The periods [lo, lo + 1, ..., hi]; [hi] is the period of the latest row
    and [lo] that of the earliest, so there is always one. *)
Definition periods (lo hi : Z) : list Z :=
  map (fun i => lo + Z.of_nat i) (seq 0 (S (Z.to_nat (hi - lo)))).

(** [df.resample(rule, on='candle_date_time_kst').last()['trade_price']] of
    a frame with rows: one entry for every period from that of the earliest
    row to that of the latest one.  On a frame without rows the program
    raises; [analyze_periodic_distribution] does so before it gets here. *)
Definition resample_last (r : Rule) (df : DataFrame) : list (Z * Float) :=
  match df with
  | [] => []
  | _ :: _ =>
      let sorted := sort_by_date df in
      map (fun k => (label_of r k, last_in r k sorted))
          (periods (period_of r (min_date df)) (period_of r (max_date df)))
  end.

(** [df['trade_price'].pct_change() * 100] *)
Definition daily_column (df : DataFrame) : list Float :=
  times_100 (pct_change (map (fun c => Some (trade_price c)) df)).

(** [calculate_returns]: the same assignment on its own, the frame handed
    back being the argument.  Every frame of this embedding has a
    ['trade_price'] column, so the [KeyError] branch is not reached. *)
Definition calculate_returns (df : Frame) : Frame :=
  mkFrame (rows df) (Some (daily_column (rows df))).

(** [df.resample(...).last().pct_change()['trade_price'] * 100] *)
Definition resample_returns (r : Rule) (df : DataFrame) : list (Z * Float) :=
  let closes := resample_last r df in
  combine (map fst closes) (times_100 (pct_change (map snd closes))).

(** [analyze_periodic_distribution]: the first component is the caller's
    frame after the call (the assignment to [df['return']] writes into the
    argument, also when the call then raises), the second the returned
    value, [None] being Python's [None] for a period that is none of the
    three.  Resampling a frame without rows raises [AttributeError]. *)
Definition analyze_periodic_distribution (df : Frame) (period : string)
    : Frame * Result (option Analysis) :=
  let df := mkFrame (rows df) (Some (daily_column (rows df))) in
  if String.eqb period "daily" then (df, Return (Some (AFrame df)))
  else if String.eqb period "weekly" then
    (df, if empty (rows df) then Raise AttributeError
         else Return (Some (ASeries (resample_returns W_MON (rows df)))))
  else if String.eqb period "monthly" then
    (df, if empty (rows df) then Raise AttributeError
         else Return (Some (ASeries (resample_returns M_END (rows df)))))
  else (df, Return None).


(** ** The distribution engine *)

Definition Qltb (x y : Q) : bool := negb (Qle_bool y x).

(** [column.min()] and [column.max()]: NaN cells are skipped, and a column
    without a number gives NaN. *)
Definition numbers (xs : list Float) : list Q :=
  flat_map (fun x => match x with Some q => [q] | None => [] end) xs.

Definition Qmin_list (qs : list Q) : Float :=
  match qs with
  | [] => NaN
  | q :: rest => Some (fold_left (fun m x => if Qltb x m then x else m) rest q)
  end.

Definition Qmax_list (qs : list Q) : Float :=
  match qs with
  | [] => NaN
  | q :: rest => Some (fold_left (fun m x => if Qltb m x then x else m) rest q)
  end.

Definition col_min (xs : list Float) : Float := Qmin_list (numbers xs).
Definition col_max (xs : list Float) : Float := Qmax_list (numbers xs).

(** [np.arange(start, stop, step)]: [ceil((stop - start) / step)] values
    [start + i * step], in exact arithmetic (as the program computes them
    for integer arguments, those of the default bin size). *)
Definition arange (start stop step : Q) : list Q :=
  map (fun i => start + inject_Z (Z.of_nat i) * step)%Q
      (seq 0 (Z.to_nat (Qceiling ((stop - start) / step)))).

(** [sa.searchsorted(v, 'left')] and [sa.searchsorted(v, 'right')] on the
    sorted values [sa]: how many values lie strictly below [v], and how many
    lie at or below it.  NaN sorts last and is never counted. *)
Definition searchsorted_left (a : list Q) (v : Q) : Z :=
  Z.of_nat (length (List.filter (fun x => Qltb x v) a)).

Definition searchsorted_right (a : list Q) (v : Q) : Z :=
  Z.of_nat (length (List.filter (fun x => Qle_bool x v) a)).

(** numpy's [_search_sorted_inclusive(sa, bin_edges)]: ['left'] for all edges
    but the last, ['right'] for the last. *)
Fixpoint search_sorted_inclusive (a : list Q) (bin_edges : list Q) : list Z :=
  match bin_edges with
  | [] => []
  | [v] => [searchsorted_right a v]
  | v :: rest => searchsorted_left a v :: search_sorted_inclusive a rest
  end.

(** [np.diff] *)
Fixpoint diffZ (l : list Z) : list Z :=
  match l with
  | a :: (b :: _) as rest => (b - a) :: diffZ rest
  | _ => []
  end.

Fixpoint diffQ (l : list Q) : list Q :=
  match l with
  | a :: (b :: _) as rest => (b - a)%Q :: diffQ rest
  | _ => []
  end.

Definition sumZ (l : list Z) : Z := fold_right Z.add 0 l.
Definition sumQ (l : list Q) : Q := fold_right Qplus 0%Q l.

(** The counts [n] of [np.histogram(a, bins=bin_edges)], from the cumulative
    counts at the edges. *)
Definition histogram_counts (a : list Float) (bin_edges : list Q) : list Z :=
  diffZ (search_sorted_inclusive (numbers a) bin_edges).

(** [np.histogram(a, bins=bin_edges, density=True)[0]]: [n / db / n.sum()].
    With a single edge there is no count and no width, and the result is
    empty. *)
Definition histogram_density (a : list Float) (bin_edges : list Q) : list Q :=
  let n := histogram_counts a bin_edges in
  let db := diffQ bin_edges in
  map (fun p => (inject_Z (fst p) / snd p / inject_Z (sumZ n))%Q) (combine n db).

(** Rounding to the nearest integer, ties to even, as ['.0f'] does. *)
Definition round_half_even (q : Q) : Z :=
  let f := Qfloor q in
  let r := (q - inject_Z f)%Q in
  if Qltb r (1 # 2) then f
  else if Qltb (1 # 2) r then f + 1
  else if Z.even f then f else f + 1.

Definition digits (n : Z) : string := NilZero.string_of_uint (N.to_uint (Z.to_N n)).

(** [f"{b:.0f}"] and [f"{b:+.0f}"] *)
Definition format_0f (plus : bool) (b : Q) : string :=
  ((if Qltb b 0 then "-" else if plus then "+" else "")
   ++ digits (round_half_even (Qabs b)))%string.

(** [f"{b:.0f}%" if b == 0 else f"{b:+.0f}%"] *)
Definition label (b : Q) : string :=
  if Qeq_bool b 0 then (format_0f false b ++ "%")%string
  else (format_0f true b ++ "%")%string.

(** [math.floor(x / bin_size) * bin_size] and its [ceil] twin, in exact
    arithmetic (as the program computes them for [bin_size = 1]); both raise
    [ValueError] on NaN. *)
Definition floor_to (bin_size : Q) (x : Q) : Q :=
  (inject_Z (Qfloor (x / bin_size)) * bin_size)%Q.

Definition ceil_to (bin_size : Q) (x : Q) : Q :=
  (inject_Z (Qceiling (x / bin_size)) * bin_size)%Q.

(** The value returned by [calculate_distribution]: a [Series] of
    percentages indexed by label. *)
Definition Distribution := list (string * Q).

(** [CryptoApp.calculate_distribution].  A [Series] has no [columns]
    attribute, so the first test raises on the weekly and monthly results. *)
Definition calculate_distribution (df : Analysis) (bin_size : Q)
    : Result Distribution :=
  match df with
  | ASeries _ => Raise AttributeError
  | AFrame df =>
      match return_col df with
      | None => Return []
      | Some returns =>
          match col_min returns, col_max returns with
          | Some lo, Some hi =>
              let min_return := floor_to bin_size lo in
              let max_return := ceil_to bin_size hi in
              let bins := arange min_return (max_return + bin_size)%Q bin_size in
              let distribution := histogram_density returns bins in
              let distribution :=
                map (fun d => (d * 100 * bin_size)%Q) distribution in
              let labels := map label (removelast bins) in
              Return (combine labels distribution)
          | _, _ => Raise ValueError
          end
      end
  end.

(** What [analyze_and_visualize] shows in the end: the input-error dialog
    of line 185, a data-error dialog (lines 190 and 196), the "no data" text
    or the bars of the chart. *)
Inductive Shown :=
| InputErrorDialog
| ErrorDialog
| NoDataText
| Bars (d : Distribution).

(** [df.empty] on the value handed back by the analysis. *)
Definition analysis_empty (df : Analysis) : bool :=
  match df with
  | AFrame f => empty (rows f)
  | ASeries s => match s with [] => true | _ :: _ => false end
  end.

(** [analyze_and_visualize] for a selected coin (a name that is not empty),
    [loaded] being what [load_coin_data] gave for it and [period] the
    selected period: what the window shows in the end, or the exception that
    reaches the event loop.  An empty [period] is [not selected_period];
    [df.empty] on [None] raises [AttributeError]. *)
Definition analyze_and_visualize (loaded : DataFrame) (period : string)
    : Result Shown :=
  if String.eqb period "" then Return InputErrorDialog
  else if empty loaded then Return ErrorDialog
  else
    match snd (analyze_periodic_distribution (mkFrame loaded None) period) with
    | Raise e => Raise e
    | Return None => Raise AttributeError
    | Return (Some df) =>
        if analysis_empty df then Return ErrorDialog
        else
          match calculate_distribution df 1 with
          | Raise e => Raise e
          | Return [] => Return NoDataText
          | Return d => Return (Bars d)
          end
    end.

(** ** The bounds in binary64

    The three lines of [calculate_distribution] that compute the bounds and
    the edges, as the program evaluates them for a float [bin_size]: every
    quotient, product, sum and difference is rounded to binary64. *)

(** [math.floor(x)]: the integer part towards minus infinity of a finite
    float; Python raises on an infinity and on NaN, [None] here. *)
Definition math_floor (x : float) : option Z :=
  match Prim2SF x with
  | S754_zero _ => Some 0
  | S754_finite s m e =>
      let n := if s then Z.neg m else Z.pos m in
      Some (match e with
            | Z.neg p => Z.shiftr n (Z.pos p)
            | _ => Z.shiftl n e
            end)
  | _ => None
  end.

(** [math.ceil(x)] *)
Definition math_ceil (x : float) : option Z :=
  option_map Z.opp (math_floor (- x)%float).

(** The float of a Python [int] below [2 ^ 63] in absolute value, as an
    operand of a float product. *)
Definition of_int (z : Z) : float :=
  if z <? 0 then (- PrimFloat.of_uint63 (Uint63.of_Z (- z)))%float
  else PrimFloat.of_uint63 (Uint63.of_Z z).

(** [math.floor(x / bin_size) * bin_size] and its [ceil] twin. *)
Definition floor_to_binary64 (bin_size x : float) : option float :=
  option_map (fun n => (of_int n * bin_size)%float) (math_floor (x / bin_size)%float).

Definition ceil_to_binary64 (bin_size x : float) : option float :=
  option_map (fun n => (of_int n * bin_size)%float) (math_ceil (x / bin_size)%float).

(** The number of values of [np.arange(start, stop, step)]:
    [ceil((stop - start) / step)]. *)
Definition arange_length_binary64 (start stop step : float) : option Z :=
  math_ceil ((stop - start) / step)%float.

(** The float that a decimal literal denotes, the literal given as a
    fraction of two small integers (3.4 as 34 over 10): the float nearest to
    the fraction, which is their correctly rounded quotient. *)
Definition decimal_literal (n d : Z) : float := (of_int n / of_int d)%float.


(** ** Vocabulary of the statements *)

(** One rate-limited attempt as it shows in the trace: the request, the
    message, the ten-second sleep. *)
Definition backoff (url : Url) (coin : string) : list Event :=
  [Get url; Printed (RateLimitExceeded coin); Sleep 10].

Fixpoint rounds (k : nat) (url : Url) (coin : string) : list Event :=
  match k with
  | O => []
  | S k => backoff url coin ++ rounds k url coin
  end.

Definition writes (w : World) : list Event := List.filter is_write (trace w).

Definition sleeps (events : list Event) : list Event := List.filter is_sleep events.

(** The series stored for a coin, empty when there is no file. *)
Definition stored (coin : string) (w : World) : DataFrame :=
  default [] (files w !! file_name coin).

(** [c] would survive the filter of a sync on the stored series [df]; on an
    empty series every candle is new. *)
Definition is_news (df : DataFrame) (c : Candle) : Prop :=
  match df with
  | [] => True
  | _ :: _ => max_date df < candle_date_time_kst c
  end.

(** From the [n]-th request on, the exchange has nothing newer than [df]. *)
Definition nothing_newer (src : Source) (n : nat) (df : DataFrame) : Prop :=
  forall (i : nat) (mkt : string) (count : Z) (to : option Z) (c : Candle),
    (n <= i)%nat ->
    status_code (candles_days src i mkt count to) = 200 ->
    In c (json (candles_days src i mkt count to)) ->
    ~ is_news df c.


(** The percentage returns a result carries, in order. *)
Definition entries (a : Analysis) : list Float :=
  match a with
  | AFrame f => default [] (return_col f)
  | ASeries s => map snd s
  end.

(** The resampling rule of a period name. *)
Definition rule_of (period : string) : option Rule :=
  if String.eqb period "weekly" then Some W_MON
  else if String.eqb period "monthly" then Some M_END
  else None.

(** [x / prev - 1] along a column of prices. *)
Fixpoint ratios (prev : Q) (qs : list Q) : list Float :=
  match qs with
  | [] => []
  | q :: rest => Some (q / prev - 1)%Q :: ratios q rest
  end.

(** Fractions in lowest terms, to compare computed columns with literals. *)
Definition reduced (xs : list Float) : list Float := map (option_map Qred) xs.

(** A bin as the specification describes it: its two edges, and whether the
    right edge belongs to it (the last bin only). *)
Record Bin := mkBin { left_edge : Q; right_edge : Q; closed : bool }.

Definition in_bin (bin : Bin) (x : Q) : bool :=
  Qle_bool (left_edge bin) x
  && (if closed bin then Qle_bool x (right_edge bin) else Qltb x (right_edge bin)).

(** The bins between consecutive edges, half-open but for the last. *)
Fixpoint bins_of (edges : list Q) : list Bin :=
  match edges with
  | e0 :: ((e1 :: rest') as rest) =>
      mkBin e0 e1 (match rest' with [] => true | _ :: _ => false end) :: bins_of rest
  | _ => []
  end.

(** How many of the values fall into a bin. *)
Definition observations (a : list Q) (bin : Bin) : Z :=
  Z.of_nat (length (List.filter (in_bin bin) a)).

Fixpoint ascending (l : list Q) : Prop :=
  match l with
  | a :: ((b :: _) as rest) => (a <= b)%Q /\ ascending rest
  | _ => True
  end.

(** A frame with the given ['return'] column; [calculate_distribution] reads
    no other column. *)
Definition frame_of (returns : list Float) : Analysis :=
  AFrame (mkFrame [] (Some returns)).

(** The arithmetic sequence [lower, lower + b, ...] of [n] edges. *)
Definition grid (lower b : Q) (n : nat) : list Q :=
  map (fun i => lower + inject_Z (Z.of_nat i) * b)%Q (seq 0 n).

(** The percentages of a distribution as fractions in lowest terms. *)
Definition lowest_terms (r : Result Distribution) : Result Distribution :=
  match r with
  | Return d => Return (map (fun p => (p.1, Qred p.2)) d)
  | Raise e => Raise e
  end.

(** The argument [to] of the request of a sync (lines 77 and 83): none
    while nothing is stored, the latest stored timestamp otherwise. *)
Definition cursor (coin : string) (w : World) : option Z :=
  match stored coin w with
  | [] => None
  | _ :: _ => Some (max_date (stored coin w))
  end.

(** The rows of a fetched frame that a sync appends (lines 84 to 87): all of
    them while nothing is stored, the strictly newer ones otherwise. *)
Definition fresh_rows (coin : string) (w : World) (new_data : DataFrame) : DataFrame :=
  match stored coin w with
  | [] => new_data
  | _ :: _ => newer_than (max_date (stored coin w)) new_data
  end.

(** All numbers of the column are the multiple [k * b] of the bin width. *)
Definition all_at (returns : list Float) (b : Q) (k : Z) : Prop :=
  forall x, In x (numbers returns) -> (x == inject_Z k * b)%Q.

(** ** Concrete exchanges and series used in the examples *)

Definition candle (day price : Z) : Candle := mkCandle day (inject_Z price).

Definition btc : string := "KRW-BTC (Bitcoin)".
Definition eth : string := "KRW-ETH (Ethereum)".
Definition xrp : string := "KRW-XRP (Ripple)".

Definition three_markets : Response (list MarketInfo) :=
  mkResponse 200
    [mkMarket "KRW-BTC" "Bitcoin"; mkMarket "BTC-ETH" "Ethereum";
     mkMarket "KRW-ETH" "Ethereum"; mkMarket "KRW-XRP" "Ripple"].

(** Three candles, newest first as the exchange sends them. *)
Definition page : DataFrame := [candle 3 120; candle 2 110; candle 1 100].

(** Rate-limited on the first two requests, then answering. *)
Definition twice_limited : Source :=
  mkSource (fun _ => three_markets)
           (fun n _ _ _ => if (n <? 2)%nat then mkResponse 429 [] else mkResponse 200 page).

(** Rate-limited on every request. *)
Definition always_limited : Source :=
  mkSource (fun _ => three_markets) (fun _ _ _ _ => mkResponse 429 []).

(** Answers for every market but KRW-ETH, for which it answers with
    [status]. *)
Definition eth_answers (status : Z) : Source :=
  mkSource (fun _ => three_markets)
           (fun _ mkt _ _ =>
              if String.eqb mkt "KRW-ETH" then mkResponse status [] else mkResponse 200 page).

(** Nothing on disk, nothing done yet. *)
Definition fresh : World := mkWorld [] ∅.

(** A run that starts with a stored series for KRW-BTC. *)
Definition with_btc : World :=
  mkWorld [] {[ "KRW-BTC_data.csv"%string := [candle 1 100; candle 2 110] ]}.

(** ** The saved coins *)

(** [s.endswith(suffix)] *)
Fixpoint endswith (s suffix : string) : bool :=
  if String.eqb s suffix then true
  else match s with
       | EmptyString => false
       | String _ rest => endswith rest suffix
       end.

(** [s.split(sep)[0]] for a separator that is not empty: what stands before
    the first occurrence of [sep], the whole of [s] when there is none. *)
Fixpoint split_first (sep s : string) : string :=
  if String.prefix sep s then EmptyString
  else match s with
       | EmptyString => EmptyString
       | String c rest => String c (split_first sep rest)
       end.

(** [os.listdir()]: the names of the files, in no particular order. *)
Definition listdir (w : World) : list string := map fst (map_to_list (files w)).

Definition load_saved_coins (w : World) : list string :=
  map (split_first "_data.csv")
      (List.filter (fun f => endswith f "_data.csv") (listdir w)).

(** ** More vocabulary *)

(** A series in strictly increasing order of timestamps, and an answer of the
    exchange in strictly decreasing order. *)
Definition older (c d : Candle) : Prop :=
  candle_date_time_kst c < candle_date_time_kst d.

Definition increasing (df : DataFrame) : Prop := StronglySorted older df.

Definition decreasing (df : DataFrame) : Prop := StronglySorted (flip older) df.

(** The characters of a string. *)
Fixpoint chars (s : string) : list ascii :=
  match s with
  | EmptyString => []
  | String c rest => c :: chars rest
  end.

Definition not_later (c d : Candle) : Prop :=
  candle_date_time_kst c <= candle_date_time_kst d.

(** * The synchroniser: retry, merge, batch *)

Section SyncFacts.

Variable src : Source.

Lemma requests_emit e w :
  requests (emit e w) = if is_get e then S (requests w) else requests w.
Proof.
  unfold requests, emit; simpl.
  rewrite List.filter_app, List.length_app; simpl.
  destruct (is_get e); simpl; lia.
Qed.

Lemma writes_emit e w :
  writes (emit e w) = writes w ++ (if is_write e then [e] else []).
Proof.
  unfold writes, emit; simpl. rewrite List.filter_app; simpl.
  now destruct (is_write e).
Qed.

Lemma fetch_loop_shape retries coin count to :
  forall w,
  exists k final,
    trace (fetch_loop src retries coin count to w).2
      = trace w ++ rounds k (CandlesDays (split_0 coin) count to) coin ++ final
    /\ (k <= retries)%nat
    /\ ((fetch_loop src retries coin count to w).1 = None
          /\ k = retries /\ final = []
        \/ (exists df, (fetch_loop src retries coin count to w).1 = Some df)
          /\ (k < retries)%nat
          /\ exists msgs, final = Get (CandlesDays (split_0 coin) count to) :: map Printed msgs).
Proof.
  induction retries as [|r IH]; intros w; simpl.
  - exists O, []. simpl. rewrite app_nil_r. split; [reflexivity|]. split; [lia|]. now left.
  - destruct (status_code _ =? 200) eqn:E200.
    + destruct (negb (empty _)) eqn:Ed; simpl.
      * exists O, [Get (CandlesDays (split_0 coin) count to)]. simpl.
        split; [reflexivity|]. split; [lia|]. right.
        split; [eauto|]. split; [lia|]. now exists [].
      * exists O, [Get (CandlesDays (split_0 coin) count to); Printed (NoDataReturned coin)].
        simpl. rewrite <- app_assoc. split; [reflexivity|]. split; [lia|]. right.
        split; [eauto|]. split; [lia|]. now exists [NoDataReturned coin].
    + destruct (status_code _ =? 429) eqn:E429.
      * destruct (IH (emit (Sleep 10) (emit (Printed (RateLimitExceeded coin))
                   (emit (Get (CandlesDays (split_0 coin) count to)) w))))
          as (k & final & Ht & Hk & Hres).
        exists (S k), final. rewrite Ht. simpl.
        rewrite <- !app_assoc. simpl. split; [reflexivity|]. split; [lia|].
        destruct Hres as [(Hn & -> & ->) | (Hdf & Hlt & Hfin)].
        -- left. auto.
        -- right. split; [exact Hdf|]. split; [lia|exact Hfin].
      * simpl.
        exists O, [Get (CandlesDays (split_0 coin) count to);
                   Printed (FailedToFetch coin (status_code
                     (candles_days src (requests w) (split_0 coin) count to)))].
        simpl. rewrite <- app_assoc. split; [reflexivity|]. split; [lia|]. right.
        split; [eauto|]. split; [lia|]. now eexists [_].
Qed.

Lemma fetch_loop_files retries coin count to :
  forall w, files (fetch_loop src retries coin count to w).2 = files w.
Proof.
  induction retries as [|r IH]; intros w; simpl; [reflexivity|].
  destruct (status_code _ =? 200).
  - now destruct (negb (empty _)).
  - destruct (status_code _ =? 429); [|reflexivity].
    now rewrite IH.
Qed.

Lemma fetch_loop_writes retries coin count to :
  forall w, writes (fetch_loop src retries coin count to w).2 = writes w.
Proof.
  induction retries as [|r IH]; intros w; simpl; [reflexivity|].
  destruct (status_code _ =? 200).
  - destruct (negb (empty _)); simpl; rewrite ?writes_emit; simpl;
      now rewrite ?app_nil_r.
  - destruct (status_code _ =? 429).
    + rewrite IH, !writes_emit. simpl. now rewrite !app_nil_r.
    + simpl. rewrite !writes_emit. simpl. now rewrite !app_nil_r.
Qed.

Lemma sleeps_app (t1 t2 : list Event) : sleeps (t1 ++ t2) = sleeps t1 ++ sleeps t2.
Proof. unfold sleeps. apply List.filter_app. Qed.

Lemma requests_app (t1 t2 : list Event) (f : gmap string DataFrame) :
  requests (mkWorld (t1 ++ t2) f)
  = (requests (mkWorld t1 f) + length (List.filter is_get t2))%nat.
Proof. unfold requests. simpl. now rewrite List.filter_app, List.length_app. Qed.

End SyncFacts.

Section Retry.

Variable src : Source.
Variables (coin : string) (count : Z) (to : option Z).

Let url := CandlesDays (split_0 coin) count to.

Lemma fetch_loop_429 retries w :
  status_code (candles_days src (requests w) (split_0 coin) count to) = 429 ->
  fetch_loop src (S retries) coin count to w
  = fetch_loop src retries coin count to
      (mkWorld (trace w ++ backoff url coin) (files w))
  /\ requests (mkWorld (trace w ++ backoff url coin) (files w)) = S (requests w).
Proof.
  intros H. split.
  - simpl. rewrite H. simpl. unfold emit; simpl.
    now rewrite <- !app_assoc.
  - unfold requests; simpl. rewrite List.filter_app, List.length_app. simpl. lia.
Qed.

Lemma fetch_loop_200 retries w data :
  candles_days src (requests w) (split_0 coin) count to = mkResponse 200 data ->
  data <> [] ->
  fetch_loop src (S retries) coin count to w = (Some (rev data), emit (Get url) w).
Proof.
  intros H Hd. simpl. rewrite H. simpl.
  destruct data; [congruence|reflexivity].
Qed.

Lemma fetch_thrice_limited w :
  (forall i, (i < 3)%nat ->
     status_code (candles_days src (requests w + i) (split_0 coin) count to) = 429) ->
  fetch_historical_data src coin count to w
  = (None, mkWorld (trace w ++ rounds 3 url coin) (files w)).
Proof.
  intros H. unfold fetch_historical_data.
  pose proof (H 0%nat ltac:(lia)) as H0. rewrite Nat.add_0_r in H0.
  destruct (fetch_loop_429 2 w H0) as [-> R1].
  pose proof (H 1%nat ltac:(lia)) as H1. rewrite Nat.add_1_r, <- R1 in H1.
  destruct (fetch_loop_429 1 _ H1) as [-> R2].
  pose proof (H 2%nat ltac:(lia)) as H2.
  replace (requests w + 2)%nat with (S (S (requests w))) in H2 by lia.
  rewrite <- R1, <- R2 in H2.
  destruct (fetch_loop_429 0 _ H2) as [-> _].
  simpl. now rewrite <- !app_assoc.
Qed.

Lemma fetch_twice_limited w data :
  status_code (candles_days src (requests w) (split_0 coin) count to) = 429 ->
  status_code (candles_days src (S (requests w)) (split_0 coin) count to) = 429 ->
  candles_days src (S (S (requests w))) (split_0 coin) count to = mkResponse 200 data ->
  data <> [] ->
  fetch_historical_data src coin count to w
  = (Some (rev data),
     mkWorld (trace w ++ backoff url coin ++ backoff url coin ++ [Get url]) (files w)).
Proof.
  intros H0 H1 H2 Hd. unfold fetch_historical_data.
  destruct (fetch_loop_429 2 w H0) as [-> R1].
  rewrite <- R1 in H1.
  destruct (fetch_loop_429 1 _ H1) as [-> R2].
  rewrite <- R1, <- R2 in H2.
  rewrite (fetch_loop_200 0 _ data H2 Hd). unfold emit. simpl.
  now rewrite <- !app_assoc.
Qed.

End Retry.

Section Merge.

Variable src : Source.

Lemma newer_than_Forall last_date df :
  Forall (fun c => last_date < candle_date_time_kst c) (newer_than last_date df).
Proof.
  apply List.Forall_forall. intros c Hc.
  apply List.filter_In in Hc. now apply Z.ltb_lt.
Qed.

Lemma filter_none {A} (f : A -> bool) (l : list A) :
  (forall x, In x l -> f x = false) -> List.filter f l = [].
Proof.
  induction l as [|a l IH]; intros H; simpl; [reflexivity|].
  rewrite (H a (or_introl eq_refl)). apply IH. intros x Hx. apply H. now right.
Qed.

(** A frame with rows handed back by the fetch is some answer of the
    exchange, reversed. *)
Lemma fetch_loop_some retries coin count to :
  forall w df,
    (fetch_loop src retries coin count to w).1 = Some df ->
    df = []
    \/ exists i, (requests w <= i)%nat
         /\ status_code (candles_days src i (split_0 coin) count to) = 200
         /\ df = rev (json (candles_days src i (split_0 coin) count to)).
Proof.
  induction retries as [|r IH]; intros w df; simpl; [discriminate|].
  destruct (status_code _ =? 200) eqn:E200.
  - destruct (negb (empty _)); simpl; intros [= <-]; [|now left].
    right. exists (requests w). split; [lia|]. split; [now apply Z.eqb_eq|reflexivity].
  - destruct (status_code _ =? 429); simpl.
    + intros H. apply IH in H. destruct H as [H | (i & Hi & Hs & Hd)]; [now left|].
      right. exists i. rewrite !requests_emit in Hi. simpl in Hi.
      split; [lia|]. now split.
    + intros [= <-]. now left.
Qed.

(** The tail of the loop body writes exactly when it is given rows. *)
Lemma merge_and_save_rows coin existing_data new_data w :
  new_data <> [] ->
  merge_and_save coin existing_data (Some new_data) w
  = (Return tt,
     emit (Printed (Updated coin)) (save_coin_data coin (existing_data ++ new_data) w)).
Proof. destruct new_data; [congruence | reflexivity]. Qed.

Lemma merge_and_save_nothing coin existing_data w :
  merge_and_save coin existing_data (Some []) w
  = (Return tt, emit (Printed (NoNewData coin)) w).
Proof. reflexivity. Qed.

(** What one pass of the loop body does to a coin that has a stored series,
    by the result of the fetch. *)
Lemma update_coin_stored coin w existing :
  files w !! file_name coin = Some existing ->
  existing <> [] ->
  let fetched :=
    fetch_historical_data src coin 200 (Some (max_date existing))
      (emit (Printed (Updating coin)) w) in
  update_coin src coin w =
    match fetched.1 with
    | None => (Raise AttributeError, fetched.2)
    | Some new_data =>
        match newer_than (max_date existing) new_data with
        | [] => (Return tt, emit (Printed (NoNewData coin)) fetched.2)
        | c :: new_rows =>
            (Return tt,
             emit (Printed (Updated coin))
               (save_coin_data coin (existing ++ c :: new_rows) fetched.2))
        end
    end.
Proof.
  intros Hf Hne fetched. unfold update_coin, load_coin_data.
  change (files (emit (Printed (Updating coin)) w)) with (files w). rewrite Hf.
  destruct existing as [|e0 rest]; [congruence|].
  change (empty (e0 :: rest)) with false. cbv iota. subst fetched.
  destruct (fetch_historical_data src coin 200 _ _) as [[new_data|] w1];
    cbn [fst snd]; [|reflexivity].
  destruct new_data as [|n0 nrest]; [reflexivity|].
  change (empty (n0 :: nrest)) with false. cbv iota.
  destruct (newer_than _ (n0 :: nrest)) eqn:E;
    [apply merge_and_save_nothing | now apply merge_and_save_rows].
Qed.

End Merge.



Section NoNews.

Variable src : Source.

Lemma fetch_no_news coin count to w df0 new_data :
  nothing_newer src (requests w) df0 ->
  (fetch_historical_data src coin count to w).1 = Some new_data ->
  Forall (fun c => ~ is_news df0 c) new_data.
Proof.
  intros Hnews Hfetch. apply fetch_loop_some in Hfetch.
  destruct Hfetch as [-> | (i & Hi & Hs & ->)]; [constructor|].
  apply List.Forall_forall. intros c Hc. apply List.in_rev in Hc.
  exact (Hnews i _ _ _ c Hi Hs Hc).
Qed.

Lemma no_news_empty (new_data : DataFrame) :
  Forall (fun c => ~ is_news [] c) new_data -> new_data = [].
Proof.
  destruct new_data as [|c rest]; [reflexivity|].
  intros H. inversion H as [|? ? Hc _]. now destruct Hc.
Qed.

Lemma no_news_filtered (existing new_data : DataFrame) :
  existing <> [] ->
  Forall (fun c => ~ is_news existing c) new_data ->
  newer_than (max_date existing) new_data = [].
Proof.
  intros Hne H. apply filter_none. intros c Hc.
  apply Z.ltb_ge. rewrite List.Forall_forall in H. specialize (H c Hc).
  destruct existing; [congruence|]. unfold is_news in H. lia.
Qed.

(** Without rows on disk the loop body fetches the first page and hands it
    to the tail. *)
Lemma update_coin_unstored coin w :
  stored coin w = [] ->
  exists w0,
    requests w0 = requests w /\ files w0 = files w /\ writes w0 = writes w
    /\ update_coin src coin w
       = merge_and_save coin []
           (fetch_historical_data src coin 200 None w0).1
           (fetch_historical_data src coin 200 None w0).2.
Proof.
  unfold stored, update_coin, load_coin_data.
  change (files (emit (Printed (Updating coin)) w)) with (files w).
  destruct (files w !! file_name coin) as [existing|]; simpl; intros Hs;
    [subst existing | clear Hs].
  - exists (emit (Printed (FetchingAll coin)) (emit (Printed (Updating coin)) w)).
    rewrite !requests_emit, !writes_emit. simpl. rewrite !app_nil_r.
    repeat split. now destruct (fetch_historical_data _ _ _ _ _).
  - exists (emit (Printed (FetchingAll coin))
             (emit (Printed (NoSavedData coin)) (emit (Printed (Updating coin)) w))).
    rewrite !requests_emit, !writes_emit. simpl. rewrite !app_nil_r.
    repeat split. now destruct (fetch_historical_data _ _ _ _ _).
Qed.

(** A sync against an exchange that has nothing newer than the stored
    series writes nothing. *)
Lemma update_coin_no_news coin w :
  nothing_newer src (requests w) (stored coin w) ->
  files (update_coin src coin w).2 = files w
  /\ writes (update_coin src coin w).2 = writes w.
Proof.
  intros Hnews.
  destruct (stored coin w) as [|e0 rest] eqn:Hs.
  - destruct (update_coin_unstored coin w Hs) as (w0 & Hr & Hf & Hw & ->).
    rewrite <- Hr in Hnews.
    pose proof (fetch_loop_files src 3 coin 200 None w0) as Hfiles.
    pose proof (fetch_loop_writes src 3 coin 200 None w0) as Hwrites.
    fold (fetch_historical_data src coin 200 None w0) in Hfiles, Hwrites.
    pose proof (fetch_no_news coin 200 None w0 [] ) as Hnd.
    destruct (fetch_historical_data src coin 200 None w0) as [[new_data|] w1];
      cbn [fst snd] in *.
    + rewrite (no_news_empty new_data (Hnd _ Hnews eq_refl)).
      rewrite merge_and_save_nothing. cbn [fst snd]. rewrite writes_emit.
      simpl. rewrite app_nil_r. split; congruence.
    + simpl. split; congruence.
  - assert (Hf : files w !! file_name coin = Some (e0 :: rest)).
    { unfold stored in Hs. destruct (files w !! file_name coin); simpl in Hs;
        congruence. }
    rewrite (update_coin_stored src coin w (e0 :: rest) Hf) by discriminate.
    cbv zeta.
    set (w0 := emit (Printed (Updating coin)) w).
    assert (Hr : requests w0 = requests w) by (unfold w0; now rewrite requests_emit).
    assert (Hw0 : writes w0 = writes w)
      by (unfold w0; rewrite writes_emit; simpl; now rewrite app_nil_r).
    assert (Hf0 : files w0 = files w) by reflexivity.
    rewrite <- Hr in Hnews.
    pose proof (fetch_loop_files src 3 coin 200 (Some (max_date (e0 :: rest))) w0) as Hfiles.
    pose proof (fetch_loop_writes src 3 coin 200 (Some (max_date (e0 :: rest))) w0) as Hwrites.
    fold (fetch_historical_data src coin 200 (Some (max_date (e0 :: rest))) w0)
      in Hfiles, Hwrites.
    pose proof (fetch_no_news coin 200 (Some (max_date (e0 :: rest))) w0 (e0 :: rest)) as Hnd.
    destruct (fetch_historical_data src coin 200 _ w0) as [[new_data|] w1];
      cbn [fst snd] in *.
    + rewrite (no_news_filtered (e0 :: rest) new_data) by
        (try discriminate; now apply Hnd).
      cbn [fst snd]. rewrite writes_emit. simpl. rewrite app_nil_r.
      split; congruence.
    + split; congruence.
Qed.

End NoNews.

(** C8.  Syncing a coin a second time, while the exchange has nothing newer
    than what the first sync left on disk, writes nothing: the files after
    the second sync are those after the first. *)
Theorem sync_idempotent (src : Source) (coin : string) (w : World) :
  let once := (update_coin src coin w).2 in
  let twice := (update_coin src coin once).2 in
  nothing_newer src (requests once) (stored coin once) ->
  files twice = files once
  /\ stored coin twice = stored coin once
  /\ writes twice = writes once.
Proof.
  intros once twice Hnews.
  destruct (update_coin_no_news src coin once Hnews) as [Hf Hw].
  subst twice. unfold stored. rewrite Hf. auto.
Qed.

Lemma sync_idempotent_witness :
  files (update_coin (eth_answers 200) btc
           (update_coin (eth_answers 200) btc fresh).2).2
  = {[ "KRW-BTC_data.csv"%string := [candle 1 100; candle 2 110; candle 3 120] ]}.
Proof.
  destruct (sync_idempotent (eth_answers 200) btc fresh) as (Hf & _ & _).
  - intros i mkt count to c _ _. simpl.
    destruct (String.eqb mkt "KRW-ETH"); simpl; [tauto|].
    intros [<- | [<- | [<- | []]]]; vm_compute; intros H; discriminate H.
  - rewrite Hf. vm_compute. reflexivity.
Defined.

(** The loop body raises only when the fetch ran out of retries. *)
Lemma update_coin_raises (src : Source) (coin : string) (w : World) (e : Exception) :
  (update_coin src coin w).1 = Raise e ->
  exists to w0, (fetch_historical_data src coin 200 to w0).1 = None.
Proof.
  destruct (stored coin w) as [|e0 rest] eqn:Hs.
  - destruct (update_coin_unstored src coin w Hs) as (w0 & _ & _ & _ & ->).
    destruct (fetch_historical_data src coin 200 None w0) as [[nd|] w1] eqn:E;
      cbn [fst snd].
    + unfold merge_and_save. destruct (negb (empty nd)); discriminate.
    + intros _. exists None, w0. now rewrite E.
  - assert (Hf : files w !! file_name coin = Some (e0 :: rest)).
    { unfold stored in Hs. destruct (files w !! file_name coin); simpl in Hs;
        congruence. }
    rewrite (update_coin_stored src coin w (e0 :: rest) Hf) by discriminate.
    cbv zeta.
    destruct (fetch_historical_data src coin 200 _ _) as [[nd|] w1] eqn:E;
      cbn [fst snd].
    + destruct (newer_than _ nd); discriminate.
    + intros _. eexists _, _. now rewrite E.
Qed.

(** A coin whose request fails with another status, here 500 for the second
    of three, is passed over and the coins after it are synced. *)
Example failed_coin_is_passed_over :
  let run := update_all_coins (eth_answers 500) fresh in
  run.1 = Return tt
  /\ files run.2
     = {[ "KRW-BTC_data.csv"%string := rev page; "KRW-XRP_data.csv"%string := rev page ]}
  /\ trace run.2
     = [Get MarketAll;
        Printed (Updating btc); Printed (NoSavedData btc); Printed (FetchingAll btc);
        Get (CandlesDays "KRW-BTC" 200 None); ToCsv "KRW-BTC_data.csv";
        Printed (Updated btc);
        Printed (Updating eth); Printed (NoSavedData eth); Printed (FetchingAll eth);
        Get (CandlesDays "KRW-ETH" 200 None); Printed (FailedToFetch eth 500);
        Printed (NoNewData eth);
        Printed (Updating xrp); Printed (NoSavedData xrp); Printed (FetchingAll xrp);
        Get (CandlesDays "KRW-XRP" 200 None); ToCsv "KRW-XRP_data.csv";
        Printed (Updated xrp)].
Proof. vm_compute. repeat split. Qed.

(** C3.  The batch at a coin that stays rate-limited: the second of three
    coins answers 429 three times, [fetch_historical_data] leaves its loop
    and returns [None], [new_data.empty] raises [AttributeError], and the
    loop over the coins ends there: the third coin is never requested and
    has no file. *)
Theorem rate_limited_coin_aborts_batch :
  let run := update_all_coins (eth_answers 429) fresh in
  run.1 = Raise AttributeError
  /\ files run.2 = {[ "KRW-BTC_data.csv"%string := rev page ]}
  /\ files run.2 !! file_name xrp = None
  /\ trace run.2
     = [Get MarketAll;
        Printed (Updating btc); Printed (NoSavedData btc); Printed (FetchingAll btc);
        Get (CandlesDays "KRW-BTC" 200 None); ToCsv "KRW-BTC_data.csv";
        Printed (Updated btc);
        Printed (Updating eth); Printed (NoSavedData eth); Printed (FetchingAll eth)]
       ++ rounds 3 (CandlesDays "KRW-ETH" 200 None) eth.
Proof. vm_compute. repeat split. Qed.

Section PassByFetch.

Variable src : Source.

Lemma stored_emit coin e w : stored coin (emit e w) = stored coin w.
Proof. reflexivity. Qed.

Lemma sleeps_emit e w :
  sleeps (trace (emit e w)) = sleeps (trace w) ++ (if is_sleep e then [e] else []).
Proof. unfold emit. simpl. rewrite sleeps_app. simpl. now destruct (is_sleep e). Qed.

(** One pass of the loop body, by what its fetch hands back. *)
Lemma update_coin_by_fetch coin w :
  exists w0,
    requests w0 = requests w /\ files w0 = files w /\ writes w0 = writes w
    /\ sleeps (trace w0) = sleeps (trace w)
    /\ update_coin src coin w
       = let fetched := fetch_historical_data src coin 200 (cursor coin w) w0 in
         match fetched.1 with
         | None => (Raise AttributeError, fetched.2)
         | Some new_data =>
             match fresh_rows coin w new_data with
             | [] => (Return tt, emit (Printed (NoNewData coin)) fetched.2)
             | c :: new_rows =>
                 (Return tt,
                  emit (Printed (Updated coin))
                    (save_coin_data coin (stored coin w ++ c :: new_rows) fetched.2))
             end
         end.
Proof.
  unfold update_coin, load_coin_data, cursor, fresh_rows, stored.
  change (files (emit (Printed (Updating coin)) w)) with (files w).
  destruct (files w !! file_name coin) as [[|e0 rest]|] eqn:Hf; cbn [default empty].
  - exists (emit (Printed (FetchingAll coin)) (emit (Printed (Updating coin)) w)).
    rewrite !requests_emit, !writes_emit, !sleeps_emit. simpl. rewrite !app_nil_r.
    repeat split.
    destruct (fetch_historical_data _ _ _ _ _) as [[[|c new_rows]|] w1]; reflexivity.
  - exists (emit (Printed (Updating coin)) w).
    rewrite !requests_emit, !writes_emit, !sleeps_emit. simpl. rewrite !app_nil_r.
    repeat split.
    destruct (fetch_historical_data _ _ _ _ _) as [[[|c new_rows]|] w1];
      cbn [fst snd empty]; try reflexivity.
    destruct (newer_than _ (c :: new_rows)); reflexivity.
  - exists (emit (Printed (FetchingAll coin))
             (emit (Printed (NoSavedData coin)) (emit (Printed (Updating coin)) w))).
    rewrite !requests_emit, !writes_emit, !sleeps_emit. simpl. rewrite !app_nil_r.
    repeat split.
    destruct (fetch_historical_data _ _ _ _ _) as [[[|c new_rows]|] w1]; reflexivity.
Qed.

End PassByFetch.

(** C1.  The retry policy.  [fetch_historical_data] makes at most three
    requests, every rate-limited one followed by a ten-second sleep; two
    rate-limit answers followed by data give that data, oldest first, after
    exactly two sleeps.  The sync of a coin inherits this: rate-limited
    twice and then answered, it sleeps twice, makes three requests and
    stores the answered rows.  At three rate-limit answers the claim and the
    program part: the loop ends with Python's [None], which is no frame, and
    the sync of the coin stops with [AttributeError] at [new_data.empty];
    nothing has been written by then, after three sleeps. *)
Theorem fetch_retry_policy (src : Source) (coin : string) (count : Z)
    (to : option Z) (w : World) :
  let url := CandlesDays (split_0 coin) count to in
  let answer i := candles_days src (requests w + i) (split_0 coin) count to in
  let result := fetch_historical_data src coin count to w in
  (exists k final,
      (k <= 3)%nat
      /\ trace result.2 = trace w ++ rounds k url coin ++ final
      /\ (result.1 = None /\ k = 3%nat /\ final = []
          \/ (exists df, result.1 = Some df) /\ (k < 3)%nat
             /\ exists msgs, final = Get url :: map Printed msgs))
  /\ files result.2 = files w
  /\ (forall data,
        status_code (answer 0%nat) = 429 ->
        status_code (answer 1%nat) = 429 ->
        answer 2%nat = mkResponse 200 data ->
        data <> [] ->
        result.1 = Some (rev data)
        /\ trace result.2 = trace w ++ backoff url coin ++ backoff url coin ++ [Get url]
        /\ sleeps (backoff url coin ++ backoff url coin ++ [Get url]) = [Sleep 10; Sleep 10])
  /\ ((forall i, (i < 3)%nat -> status_code (answer i) = 429) ->
        result.1 = None
        /\ trace result.2 = trace w ++ rounds 3 url coin
        /\ sleeps (rounds 3 url coin) = [Sleep 10; Sleep 10; Sleep 10])
  /\ (forall w0 data,
        let sync := update_coin src coin w0 in
        let answer0 i :=
          candles_days src (requests w0 + i) (split_0 coin) 200 (cursor coin w0) in
        status_code (answer0 0%nat) = 429 ->
        status_code (answer0 1%nat) = 429 ->
        answer0 2%nat = mkResponse 200 data ->
        data <> [] ->
        sync.1 = Return tt
        /\ stored coin sync.2 = stored coin w0 ++ fresh_rows coin w0 (rev data)
        /\ sleeps (trace sync.2) = sleeps (trace w0) ++ [Sleep 10; Sleep 10]
        /\ requests sync.2 = (requests w0 + 3)%nat)
  /\ (forall w0,
        let sync := update_coin src coin w0 in
        (forall i, (i < 3)%nat ->
           status_code (candles_days src (requests w0 + i) (split_0 coin) 200
                          (cursor coin w0)) = 429) ->
        sync.1 = Raise AttributeError
        /\ files sync.2 = files w0
        /\ writes sync.2 = writes w0
        /\ sleeps (trace sync.2) = sleeps (trace w0) ++ [Sleep 10; Sleep 10; Sleep 10]
        /\ requests sync.2 = (requests w0 + 3)%nat).
Proof.
  intros url answer result. subst result answer. cbv beta.
  split; [|split; [|split; [|split; [|split]]]].
  - destruct (fetch_loop_shape src 3 coin count to w) as (k & final & Ht & Hk & Hres).
    exists k, final. unfold fetch_historical_data. auto.
  - apply fetch_loop_files.
  - intros data H0 H1 H2 Hd.
    rewrite Nat.add_0_r in H0. rewrite Nat.add_1_r in H1.
    replace (requests w + 2)%nat with (S (S (requests w))) in H2 by lia.
    rewrite (fetch_twice_limited src coin count to w data H0 H1 H2 Hd). simpl. auto.
  - intros H. rewrite (fetch_thrice_limited src coin count to w H). simpl. auto.
  - intros w0 data sync answer0 H0 H1 H2 Hd. subst sync answer0. cbv beta in *.
    destruct (update_coin_by_fetch src coin w0) as (w1 & Hr & Hf & Hw & Hsl & ->).
    cbv zeta.
    rewrite Nat.add_0_r, <- Hr in H0. rewrite Nat.add_1_r, <- Hr in H1.
    replace (requests w0 + 2)%nat with (S (S (requests w1))) in H2 by lia.
    rewrite (fetch_twice_limited src coin 200 (cursor coin w0) w1 data H0 H1 H2 Hd).
    cbn [fst snd].
    set (url0 := CandlesDays (split_0 coin) 200 (cursor coin w0)).
    set (w2 := mkWorld (trace w1 ++ backoff url0 coin ++ backoff url0 coin ++ [Get url0])
                 (files w1)).
    assert (Hs2 : sleeps (trace w2) = sleeps (trace w0) ++ [Sleep 10; Sleep 10]).
    { unfold w2. simpl. rewrite sleeps_app, Hsl. reflexivity. }
    assert (Hr2 : requests w2 = (requests w0 + 3)%nat).
    { unfold w2. rewrite requests_app. simpl.
      change (requests {| trace := trace w1; files := files w1 |}) with (requests w1).
      lia. }
    assert (Hst2 : stored coin w2 = stored coin w0)
      by (unfold stored, w2; simpl; now rewrite Hf).
    destruct (fresh_rows coin w0 (rev data)) as [|c new_rows]; cbn [fst snd].
    + rewrite stored_emit, sleeps_emit, requests_emit. simpl.
      rewrite !app_nil_r. auto.
    + unfold save_coin_data.
      rewrite !stored_emit, !sleeps_emit, !requests_emit. cbn [is_sleep is_get].
      rewrite !app_nil_r.
      split; [reflexivity|]. split; [|split].
      * unfold stored at 1. simpl. now rewrite lookup_insert_eq.
      * exact Hs2.
      * exact Hr2.
  - intros w0 sync H. subst sync.
    destruct (update_coin_by_fetch src coin w0) as (w1 & Hr & Hf & Hw & Hsl & ->).
    cbv zeta.
    rewrite (fetch_thrice_limited src coin 200 (cursor coin w0) w1)
      by (intros i Hi; rewrite Hr; now apply H).
    cbn [fst snd]. simpl files.
    split; [reflexivity|]. split; [exact Hf|]. split; [|split].
    + unfold writes. simpl. rewrite List.filter_app. simpl.
      rewrite app_nil_r. exact Hw.
    + simpl. rewrite sleeps_app, Hsl. reflexivity.
    + rewrite requests_app. simpl.
      change (requests {| trace := trace w1; files := files w1 |}) with (requests w1).
      lia.
Qed.

Lemma fetch_retry_policy_witness :
  (fetch_historical_data twice_limited btc 200 None fresh).1 = Some (rev page)
  /\ stored btc (update_coin twice_limited btc fresh).2 = rev page
  /\ sleeps (trace (update_coin twice_limited btc fresh).2) = [Sleep 10; Sleep 10]
  /\ (update_coin always_limited btc fresh).1 = Raise AttributeError
  /\ files (update_coin always_limited btc fresh).2 = files fresh
  /\ sleeps (trace (update_coin always_limited btc fresh).2)
     = [Sleep 10; Sleep 10; Sleep 10].
Proof.
  pose proof (fetch_retry_policy twice_limited btc 200 None fresh) as H2.
  pose proof (fetch_retry_policy always_limited btc 200 None fresh) as H3.
  cbv zeta in H2, H3.
  destruct H2 as (_ & _ & H2 & _ & S2 & _).
  destruct H3 as (_ & _ & _ & _ & _ & S3).
  destruct (S2 fresh page) as (_ & B & C & _);
    [reflexivity | reflexivity | reflexivity | discriminate |].
  destruct (S3 fresh) as (D & E & _ & F & _); [intros i Hi; reflexivity|].
  split; [|split; [|split; [|split; [|split]]]].
  - apply (H2 page); [reflexivity | reflexivity | reflexivity | discriminate].
  - exact B.
  - exact C.
  - exact D.
  - exact E.
  - exact F.
Defined.

(** * The aggregator: percentage returns *)

Section Columns.

Lemma ffill_from_prices prev (qs : list Q) :
  ffill_from prev (map Some qs) = map Some qs.
Proof.
  revert prev. induction qs as [|q qs IH]; intros prev; simpl; [reflexivity|].
  now rewrite IH.
Qed.

Lemma ffill_from_length prev xs : length (ffill_from prev xs) = length xs.
Proof.
  revert prev. induction xs as [|[x|] xs IH]; intros prev; simpl;
    now rewrite ?IH.
Qed.

Lemma combine_removelast {A} (x : A) (d : list A) :
  combine d (removelast (x :: d)) = combine d (x :: d).
Proof.
  revert x. induction d as [|y d IH]; intros x; [reflexivity|].
  change (removelast (x :: y :: d)) with (x :: removelast (y :: d)).
  cbn [combine]. now rewrite IH.
Qed.

Lemma combine_shift (data : list Float) :
  combine data (shift data) = combine data (NaN :: data).
Proof.
  destruct data as [|x d]; [reflexivity|].
  unfold shift.
  change (combine (x :: d) (NaN :: removelast (x :: d)))
    with ((x, NaN) :: combine d (removelast (x :: d))).
  now rewrite combine_removelast.
Qed.

Lemma pct_change_unfold xs :
  pct_change xs
  = map (fun p => fsub (fdiv p.1 p.2) (Some 1%Q)) (combine (ffill xs) (NaN :: ffill xs)).
Proof. unfold pct_change. now rewrite combine_shift. Qed.

Lemma pct_change_length xs : length (pct_change xs) = length xs.
Proof.
  rewrite pct_change_unfold, List.length_map, List.length_combine. simpl.
  unfold ffill. rewrite ffill_from_length. lia.
Qed.

Lemma times_100_length xs : length (times_100 xs) = length xs.
Proof. apply List.length_map. Qed.

(** The first cell of a percentage change is NaN. *)
Lemma pct_change_head x xs : hd_error (times_100 (pct_change (x :: xs))) = Some NaN.
Proof.
  rewrite pct_change_unfold. unfold ffill.
  destruct x as [x|]; simpl; unfold fdiv, fbin; simpl; reflexivity.
Qed.

Lemma ratios_combine prev (qs : list Q) :
  map (fun p => fsub (fdiv p.1 p.2) (Some 1%Q))
      (combine (map Some qs) (Some prev :: map Some qs))
  = ratios prev qs.
Proof.
  revert prev. induction qs as [|q qs IH]; intros prev; simpl; [reflexivity|].
  now rewrite IH.
Qed.

Lemma pct_change_prices q (qs : list Q) :
  pct_change (map Some (q :: qs)) = NaN :: ratios q qs.
Proof.
  rewrite pct_change_unfold. unfold ffill. rewrite ffill_from_prices.
  simpl. now rewrite ratios_combine.
Qed.

Lemma ratios_nth prev (qs : list Q) :
  forall i p c,
    nth_error (prev :: qs) i = Some p ->
    nth_error (prev :: qs) (S i) = Some c ->
    nth_error (ratios prev qs) i = Some (Some (c / p - 1)%Q).
Proof.
  revert prev. induction qs as [|q qs IH]; intros prev i p c Hp Hc.
  - destruct i; simpl in Hc; discriminate.
  - destruct i as [|i]; simpl in *.
    + now inversion Hp; inversion Hc.
    + now apply IH.
Qed.

Lemma daily_column_length (df : DataFrame) :
  length (daily_column df) = length df.
Proof.
  unfold daily_column.
  now rewrite times_100_length, pct_change_length, List.length_map.
Qed.

Lemma daily_column_head (c : Candle) (rest : DataFrame) :
  hd_error (daily_column (c :: rest)) = Some NaN.
Proof. apply (pct_change_head (Some (trade_price c))). Qed.

(** The cell of row [i + 1] of the daily column. *)
Lemma daily_column_nth (df : DataFrame) (i : nat) (prev cur : Candle) :
  nth_error df i = Some prev ->
  nth_error df (S i) = Some cur ->
  nth_error (daily_column df) (S i)
  = Some (Some ((trade_price cur / trade_price prev - 1) * 100)%Q).
Proof.
  intros Hp Hc. unfold daily_column.
  destruct df as [|c0 rest]; [destruct i; discriminate|].
  replace (map (fun c => Some (trade_price c)) (c0 :: rest))
    with (map Some (trade_price c0 :: map trade_price rest))
    by (simpl; now rewrite List.map_map).
  rewrite pct_change_prices. unfold times_100. simpl.
  rewrite List.nth_error_map.
  rewrite (ratios_nth (trade_price c0) (map trade_price rest) i
             (trade_price prev) (trade_price cur)).
  - reflexivity.
  - change (trade_price c0 :: map trade_price rest)
      with (map trade_price (c0 :: rest)).
    rewrite List.nth_error_map, Hp. reflexivity.
  - change (trade_price c0 :: map trade_price rest)
      with (map trade_price (c0 :: rest)).
    rewrite List.nth_error_map, Hc. reflexivity.
Qed.

End Columns.

(** C4.  The daily return of row [i + 1] is the change of the close from row
    [i], as a percentage of the close of row [i]; closes 100, 110, 99 give
    +10 and then -10, the second measured from 110. *)
Theorem daily_return_formula :
  (forall (df : Frame) (i : nat) (prev cur : Candle),
      nth_error (rows df) i = Some prev ->
      nth_error (rows df) (S i) = Some cur ->
      ~ trade_price prev == 0 ->
      exists returns r,
        return_col (analyze_periodic_distribution df "daily").1 = Some returns
        /\ (analyze_periodic_distribution df "daily").2
           = Return (Some (AFrame (mkFrame (rows df) (Some returns))))
        /\ nth_error returns (S i) = Some (Some r)
        /\ r == (trade_price cur - trade_price prev) / trade_price prev * 100)
  /\ option_map reduced
       (return_col (analyze_periodic_distribution
          (mkFrame [candle 1 100; candle 2 110; candle 3 99] None) "daily").1)
     = Some [NaN; Some 10%Q; Some (-10)%Q].
Proof.
  split; [|reflexivity].
  intros df i prev cur Hp Hc Hnz.
  exists (times_100 (pct_change (map (fun c => Some (trade_price c)) (rows df)))).
  exists ((trade_price cur / trade_price prev - 1) * 100)%Q.
  split; [reflexivity|]. split; [reflexivity|]. split.
  - destruct (rows df) as [|c0 rest] eqn:Hrows; [destruct i; discriminate|].
    replace (map (fun c => Some (trade_price c)) (c0 :: rest))
      with (map Some (trade_price c0 :: map trade_price rest))
      by (simpl; now rewrite List.map_map).
    rewrite pct_change_prices. unfold times_100. simpl.
    rewrite List.nth_error_map.
    rewrite (ratios_nth (trade_price c0) (map trade_price rest) i
               (trade_price prev) (trade_price cur)).
    + reflexivity.
    + change (trade_price c0 :: map trade_price rest)
        with (map trade_price (c0 :: rest)).
      rewrite List.nth_error_map, Hp. reflexivity.
    + change (trade_price c0 :: map trade_price rest)
        with (map trade_price (c0 :: rest)).
      rewrite List.nth_error_map, Hc. reflexivity.
  - field. exact Hnz.
Qed.

Lemma daily_return_formula_witness :
  exists returns r,
    return_col (analyze_periodic_distribution
      (mkFrame [candle 1 100; candle 2 110; candle 3 99] None) "daily").1 = Some returns
    /\ nth_error returns 2 = Some (Some r)
    /\ r == -10.
Proof.
  destruct (proj1 daily_return_formula
              (mkFrame [candle 1 100; candle 2 110; candle 3 99] None)
              1%nat (candle 2 110) (candle 3 99))
    as (returns & r & H1 & _ & H3 & H4).
  - reflexivity.
  - reflexivity.
  - simpl. intros H. discriminate H.
  - exists returns, r. split; [exact H1|]. split; [exact H3|].
    rewrite H4. reflexivity.
Defined.

Section Resampling.

Lemma map_fst_combine {A B} (a : list A) (b : list B) :
  length a = length b -> map fst (combine a b) = a.
Proof.
  revert b. induction a as [|x a IH]; intros [|y b] H; simpl in *;
    try reflexivity; try discriminate.
  f_equal. apply IH. lia.
Qed.

Lemma map_snd_combine {A B} (a : list A) (b : list B) :
  length a = length b -> map snd (combine a b) = b.
Proof.
  revert b. induction a as [|x a IH]; intros [|y b] H; simpl in *;
    try reflexivity; try discriminate.
  f_equal. apply IH. lia.
Qed.

Lemma nth_error_combine {A B} (a : list A) (b : list B) i :
  nth_error (combine a b) i
  = match nth_error a i, nth_error b i with
    | Some x, Some y => Some (x, y)
    | _, _ => None
    end.
Proof.
  revert b i. induction a as [|x a IH]; intros [|y b] [|i]; simpl;
    try reflexivity.
  - now destruct (nth_error a i).
  - apply IH.
Qed.

(** After the forward fill a NaN cell repeats the cell before it. *)
Lemma ffill_from_gap prev xs :
  forall i,
    nth_error xs (S i) = Some NaN ->
    nth_error (ffill_from prev xs) (S i) = nth_error (ffill_from prev xs) i.
Proof.
  revert prev. induction xs as [|a rest IH]; intros prev i H; [discriminate|].
  destruct i as [|i].
  - destruct rest as [|b rest']; [discriminate|].
    simpl in H. injection H as ->.
    destruct a; reflexivity.
  - change (nth_error (a :: rest) (S (S i))) with (nth_error rest (S i)) in H.
    destruct a as [x|]; simpl; now apply IH.
Qed.

(** A cell that is NaN before the fill, after a cell that is a non-zero
    number once filled, has percentage change 0. *)
Lemma pct_change_gap xs i x :
  nth_error xs (S i) = Some NaN ->
  nth_error (ffill xs) i = Some (Some x) ->
  ~ x == 0 ->
  exists v, nth_error (times_100 (pct_change xs)) (S i) = Some (Some v) /\ v == 0.
Proof.
  intros Hgap Hprev Hnz.
  exists ((x / x - 1) * 100)%Q. split; [|field; exact Hnz].
  unfold times_100. rewrite List.nth_error_map, pct_change_unfold.
  rewrite List.nth_error_map, nth_error_combine.
  unfold ffill in *. rewrite (ffill_from_gap NaN xs i Hgap).
  simpl. rewrite Hprev. reflexivity.
Qed.

Lemma resample_last_labels r (c : Candle) rest :
  map fst (resample_last r (c :: rest))
  = map (label_of r)
      (periods (period_of r (min_date (c :: rest))) (period_of r (max_date (c :: rest)))).
Proof. unfold resample_last. now rewrite List.map_map. Qed.

Lemma resample_returns_labels r df :
  map fst (resample_returns r df) = map fst (resample_last r df).
Proof.
  unfold resample_returns. apply map_fst_combine.
  now rewrite times_100_length, pct_change_length, !List.length_map.
Qed.

Lemma resample_returns_values r df :
  map snd (resample_returns r df)
  = times_100 (pct_change (map snd (resample_last r df))).
Proof.
  unfold resample_returns. apply map_snd_combine.
  now rewrite times_100_length, pct_change_length, !List.length_map.
Qed.

Lemma resample_last_rows r (c : Candle) rest :
  exists k x tail, resample_last r (c :: rest) = (k, x) :: tail.
Proof. unfold resample_last, periods. simpl. eauto. Qed.

Lemma resample_returns_rows r (c : Candle) rest :
  exists e tail, resample_returns r (c :: rest) = e :: tail
    /\ hd_error (map snd (resample_returns r (c :: rest))) = Some NaN.
Proof.
  pose proof (resample_returns_values r (c :: rest)) as Hv.
  pose proof (resample_returns_labels r (c :: rest)) as Hl.
  destruct (resample_last_rows r c rest) as (k & x & tail & E).
  rewrite E in Hv, Hl. simpl in Hv, Hl.
  destruct (resample_returns r (c :: rest)) as [|e tl]; [discriminate|].
  exists e, tl. split; [reflexivity|]. rewrite Hv. apply pct_change_head.
Qed.

End Resampling.

Section EveryPeriod.

Variable r : Rule.
Variable df : DataFrame.

Lemma series_empty_iff :
  analysis_empty (ASeries (resample_returns r df)) = true <-> df = [].
Proof.
  destruct df as [|c rest]; [split; reflexivity|].
  destruct (resample_returns_rows r c rest) as (e & tail & -> & _).
  simpl. split; discriminate.
Qed.

Lemma series_head :
  df <> [] -> hd_error (entries (ASeries (resample_returns r df))) = Some NaN.
Proof.
  destruct df as [|c rest]; [congruence|]. intros _.
  now destruct (resample_returns_rows r c rest) as (e & tail & _ & H).
Qed.

Lemma series_labels :
  df <> [] ->
  map fst (resample_returns r df)
  = map (label_of r) (periods (period_of r (min_date df)) (period_of r (max_date df))).
Proof.
  destruct df as [|c rest]; [congruence|]. intros _.
  rewrite resample_returns_labels. apply resample_last_labels.
Qed.

Lemma series_gap i lbl x :
  nth_error (resample_last r df) (S i) = Some (lbl, NaN) ->
  nth_error (ffill (map snd (resample_last r df))) i = Some (Some x) ->
  ~ x == 0 ->
  exists v, nth_error (entries (ASeries (resample_returns r df))) (S i) = Some (Some v)
            /\ v == 0.
Proof.
  intros Hgap Hprev Hnz. simpl. rewrite resample_returns_values.
  apply (pct_change_gap _ i x); [|exact Hprev|exact Hnz].
  rewrite List.nth_error_map, Hgap. reflexivity.
Qed.

End EveryPeriod.

(** The analysis writes the daily column into its argument whatever the
    period, and raises or returns afterwards. *)
Lemma analysis_frame_after (df : Frame) (period : string) :
  (analyze_periodic_distribution df period).1
  = mkFrame (rows df) (Some (daily_column (rows df))).
Proof.
  unfold analyze_periodic_distribution.
  destruct (String.eqb period "daily"); [reflexivity|].
  destruct (String.eqb period "weekly"); [reflexivity|].
  destruct (String.eqb period "monthly"); reflexivity.
Qed.

(** For a frame with rows the weekly and the monthly analysis return the
    series of the resampled returns. *)
Lemma analysis_series (df : Frame) (period : string) (r : Rule) :
  rule_of period = Some r ->
  rows df <> [] ->
  (analyze_periodic_distribution df period).2
  = Return (Some (ASeries (resample_returns r (rows df)))).
Proof.
  intros Hr Hrows. unfold rule_of in Hr. unfold analyze_periodic_distribution.
  cbn [rows snd].
  destruct (rows df) as [|c rest] eqn:E; [congruence|]. cbn [empty].
  destruct (String.eqb period "daily") eqn:Ed.
  - apply String.eqb_eq in Ed. subst period. discriminate Hr.
  - destruct (String.eqb period "weekly"); cbn [snd].
    + now injection Hr as <-.
    + destruct (String.eqb period "monthly"); [|discriminate Hr].
      cbn [snd]. now injection Hr as <-.
Qed.

(** C10.  Whatever the period, the call leaves its argument with a
    ['return'] column of the daily percentage changes: one cell per row, the
    first one NaN, the cell of row [i + 1] the change of the close from row
    [i] in percent of the close of row [i].  For the weekly and the monthly
    period the value returned for a frame with rows is a series with one
    entry per calendar period, which does not carry that column.  A frame
    that came without the column is therefore changed by the call. *)
Theorem analysis_mutates_frame (df : Frame) (period : string) :
  let after := (analyze_periodic_distribution df period).1 in
  rows after = rows df
  /\ (exists column,
        return_col after = Some column
        /\ length column = length (rows df)
        /\ (rows df <> [] -> hd_error column = Some NaN)
        /\ forall (i : nat) (prev cur : Candle),
             nth_error (rows df) i = Some prev ->
             nth_error (rows df) (S i) = Some cur ->
             ~ trade_price prev == 0 ->
             exists r,
               nth_error column (S i) = Some (Some r)
               /\ r == (trade_price cur - trade_price prev) / trade_price prev * 100)
  /\ (forall r, rule_of period = Some r ->
        rows df <> [] ->
        exists s,
          (analyze_periodic_distribution df period).2 = Return (Some (ASeries s))
          /\ map fst s
             = map (label_of r)
                 (periods (period_of r (min_date (rows df)))
                          (period_of r (max_date (rows df)))))
  /\ (return_col df = None -> after <> df)
  /\ (forall old, return_col df = Some old ->
        length old <> length (rows df) -> after <> df).
Proof.
  intros after. subst after. rewrite analysis_frame_after. cbn [rows return_col].
  split; [reflexivity|]. split; [|split; [|split]].
  - exists (daily_column (rows df)). split; [reflexivity|].
    split; [apply daily_column_length|]. split.
    + destruct (rows df) as [|c rest]; [congruence|]. intros _.
      apply daily_column_head.
    + intros i prev cur Hp Hc Hnz.
      exists ((trade_price cur / trade_price prev - 1) * 100)%Q.
      split; [now apply daily_column_nth | field; exact Hnz].
  - intros r Hr Hrows. exists (resample_returns r (rows df)).
    split; [exact (analysis_series df period r Hr Hrows)|].
    now apply series_labels.
  - intros Hnone Heq. rewrite <- Heq in Hnone. discriminate Hnone.
  - intros old Hold Hlen Heq. rewrite <- Heq in Hold. cbn [return_col] in Hold.
    injection Hold as <-. apply Hlen. apply daily_column_length.
Qed.

Lemma analysis_mutates_frame_witness :
  let df := mkFrame [candle 1 100; candle 2 110] None in
  (analyze_periodic_distribution df "weekly").1 <> df
  /\ (exists column r,
        return_col (analyze_periodic_distribution df "weekly").1 = Some column
        /\ length column = 2%nat
        /\ hd_error column = Some NaN
        /\ nth_error column 1 = Some (Some r)
        /\ r == 10)
  /\ exists s,
       (analyze_periodic_distribution df "weekly").2 = Return (Some (ASeries s))
       /\ map fst s = [4].
Proof.
  intros df.
  destruct (analysis_mutates_frame df "weekly")
    as (_ & (column & Hcol & Hlen & Hhd & Hcell) & Hs & Hn & _).
  split; [|split].
  - apply Hn. reflexivity.
  - destruct (Hcell 0%nat (candle 1 100) (candle 2 110)) as (r & Hr & Er).
    + reflexivity.
    + reflexivity.
    + simpl. intros H. discriminate H.
    + exists column, r. split; [exact Hcol|]. split; [exact Hlen|].
      split; [apply Hhd; discriminate|]. split; [exact Hr|].
      rewrite Er. reflexivity.
  - destruct (Hs W_MON) as (s & Hres & Hlab).
    + reflexivity.
    + discriminate.
    + exists s. split; [exact Hres|]. rewrite Hlab. reflexivity.
Defined.

(** C7, as the program has it at concrete inputs.  One candle: the daily
    result is a frame with one row whose return is NaN and the weekly result
    a series with one entry, NaN as well; neither is empty.  Two candles with
    a week without observations between them: that week is in the result,
    with return 0 from the padded close. *)
Lemma one_period_is_not_empty :
  (analyze_periodic_distribution (mkFrame [candle 0 100] None) "daily").2
  = Return (Some (AFrame (mkFrame [candle 0 100] (Some [NaN]))))
  /\ analysis_empty (AFrame (mkFrame [candle 0 100] (Some [NaN]))) = false
  /\ (analyze_periodic_distribution (mkFrame [candle 0 100] None) "weekly").2
     = Return (Some (ASeries [(4, NaN)]))
  /\ analysis_empty (ASeries [(4, NaN)]) = false
  /\ exists s,
       (analyze_periodic_distribution
          (mkFrame [candle 0 100; candle 15 110] None) "weekly").2
       = Return (Some (ASeries s))
       /\ map fst s = [4; 11; 18]
       /\ reduced (map snd s) = [NaN; Some 0%Q; Some 10%Q].
Proof.
  split; [reflexivity|]. split; [reflexivity|]. split; [reflexivity|].
  split; [reflexivity|]. eexists. split; [reflexivity|].
  split; vm_compute; reflexivity.
Qed.

(** C7, amended.  For a frame with rows and each of the three periods the
    computation of the returns gives a result without raising, the result is
    not empty, and no entry is dropped: the daily result has one row per
    input row, the weekly and monthly results have an entry for every period
    from that of the earliest row to that of the latest, the periods without
    rows among them, and such a period, its close padded from the one
    before, has return 0.  The first return is NaN. *)
Theorem returns_keep_every_period (df : Frame) (period : string) :
  In period ["daily"; "weekly"; "monthly"]%string ->
  rows df <> [] ->
  exists result,
    (analyze_periodic_distribution df period).2 = Return (Some result)
    /\ analysis_empty result = false
    /\ hd_error (entries result) = Some NaN
    /\ (period = "daily"%string ->
          exists f, result = AFrame f /\ rows f = rows df
                    /\ length (entries result) = length (rows df))
    /\ (forall r, rule_of period = Some r ->
          exists s, result = ASeries s
            /\ map fst s
               = map (label_of r)
                   (periods (period_of r (min_date (rows df)))
                            (period_of r (max_date (rows df))))
            /\ (forall i lbl x,
                  nth_error (resample_last r (rows df)) (S i) = Some (lbl, NaN) ->
                  nth_error (ffill (map snd (resample_last r (rows df)))) i
                    = Some (Some x) ->
                  ~ x == 0 ->
                  exists v, nth_error (entries result) (S i) = Some (Some v)
                            /\ v == 0)).
Proof.
  intros Hperiod Hrows.
  assert (Hseries : forall r, rule_of period = Some r ->
            period <> "daily"%string ->
            exists result,
              (analyze_periodic_distribution df period).2 = Return (Some result)
              /\ analysis_empty result = false
              /\ hd_error (entries result) = Some NaN
              /\ (period = "daily"%string ->
                    exists f, result = AFrame f /\ rows f = rows df
                              /\ length (entries result) = length (rows df))
              /\ (forall r', rule_of period = Some r' ->
                    exists s, result = ASeries s
                      /\ map fst s
                         = map (label_of r')
                             (periods (period_of r' (min_date (rows df)))
                                      (period_of r' (max_date (rows df))))
                      /\ (forall i lbl x,
                            nth_error (resample_last r' (rows df)) (S i) = Some (lbl, NaN) ->
                            nth_error (ffill (map snd (resample_last r' (rows df)))) i
                              = Some (Some x) ->
                            ~ x == 0 ->
                            exists v, nth_error (entries result) (S i) = Some (Some v)
                                      /\ v == 0))).
  { intros r Hr Hnd. exists (ASeries (resample_returns r (rows df))).
    split; [now apply analysis_series|]. split.
    - destruct (analysis_empty _) eqn:E; [|reflexivity].
      apply series_empty_iff in E. contradiction.
    - split; [now apply series_head|]. split; [intros E; contradiction|].
      intros r' Hr'. assert (r' = r) by congruence. subst r'.
      eexists. split; [reflexivity|].
      split; [now apply series_labels | apply series_gap]. }
  destruct Hperiod as [<- | [<- | [<- | []]]].
  - exists (AFrame (mkFrame (rows df) (Some (daily_column (rows df))))).
    split; [reflexivity|]. split; [|split; [|split]].
    + simpl. destruct (rows df); [congruence | reflexivity].
    + simpl. destruct (rows df) as [|c rest]; [congruence|].
      apply daily_column_head.
    + intros _. eexists. split; [reflexivity|]. split; [reflexivity|].
      simpl. apply daily_column_length.
    + intros r Hr. discriminate Hr.
  - apply (Hseries W_MON); [reflexivity | discriminate].
  - apply (Hseries M_END); [reflexivity | discriminate].
Qed.

Lemma returns_keep_every_period_witness :
  exists s,
    (analyze_periodic_distribution
       (mkFrame [candle 0 100; candle 15 110] None) "weekly").2
    = Return (Some (ASeries s))
    /\ map fst s = [4; 11; 18]
    /\ exists v, nth_error (map snd s) 1 = Some (Some v) /\ v == 0.
Proof.
  destruct (returns_keep_every_period
              (mkFrame [candle 0 100; candle 15 110] None) "weekly")
    as (result & Hres & _ & _ & _ & Hrule).
  - right. left. reflexivity.
  - discriminate.
  - destruct (Hrule W_MON eq_refl) as (s & -> & Hlabels & Hgap).
    exists s. split; [exact Hres|]. split.
    + rewrite Hlabels. reflexivity.
    + apply (Hgap 0%nat 11 100%Q).
      * reflexivity.
      * reflexivity.
      * intros H. discriminate H.
Defined.

(** * The distribution engine: bins and proportions *)

Local Open Scope Q_scope.

Section Comparisons.

Lemma Qltb_lt x y : Qltb x y = true <-> x < y.
Proof.
  unfold Qltb. rewrite Bool.negb_true_iff. split.
  - intros H. apply Qnot_le_lt. intros Hle. apply Qle_bool_iff in Hle. congruence.
  - intros H. destruct (Qle_bool y x) eqn:E; [|reflexivity].
    apply Qle_bool_iff in E. apply Qlt_not_le in H. contradiction.
Qed.

Lemma Qltb_ge x y : Qltb x y = false <-> y <= x.
Proof.
  unfold Qltb. rewrite Bool.negb_false_iff. apply Qle_bool_iff.
Qed.

Lemma Qle_bool_gt x y : Qle_bool x y = false <-> y < x.
Proof.
  split.
  - intros H. apply Qnot_le_lt. intros Hle. apply Qle_bool_iff in Hle. congruence.
  - intros H. destruct (Qle_bool x y) eqn:E; [|reflexivity].
    apply Qle_bool_iff in E. apply Qlt_not_le in H. contradiction.
Qed.

End Comparisons.

Section MinMax.

Lemma fold_min_spec (rest : list Q) :
  forall q,
    let m := fold_left (fun m x => if Qltb x m then x else m) rest q in
    In m (q :: rest) /\ forall x, In x (q :: rest) -> m <= x.
Proof.
  induction rest as [|a rest IH]; intros q; simpl.
  - split; [now left|]. intros x [<- | []]. apply Qle_refl.
  - destruct (Qltb a q) eqn:E.
    + destruct (IH a) as [Hin Hle]. split.
      * destruct Hin as [<- | Hin]; [right; now left | right; now right].
      * intros x [<- | [<- | Hx]].
        -- apply Qltb_lt in E. eapply Qle_trans; [apply Hle; now left|].
           now apply Qlt_le_weak.
        -- apply Hle. now left.
        -- apply Hle. now right.
    + destruct (IH q) as [Hin Hle]. split.
      * destruct Hin as [<- | Hin]; [now left | right; now right].
      * intros x [<- | [<- | Hx]].
        -- apply Hle. now left.
        -- apply Qltb_ge in E. eapply Qle_trans; [apply Hle; now left|exact E].
        -- apply Hle. now right.
Qed.

Lemma fold_max_spec (rest : list Q) :
  forall q,
    let m := fold_left (fun m x => if Qltb m x then x else m) rest q in
    In m (q :: rest) /\ forall x, In x (q :: rest) -> x <= m.
Proof.
  induction rest as [|a rest IH]; intros q; simpl.
  - split; [now left|]. intros x [<- | []]. apply Qle_refl.
  - destruct (Qltb q a) eqn:E.
    + destruct (IH a) as [Hin Hle]. split.
      * destruct Hin as [<- | Hin]; [right; now left | right; now right].
      * intros x [<- | [<- | Hx]].
        -- apply Qltb_lt in E. eapply Qle_trans; [|apply Hle; now left].
           now apply Qlt_le_weak.
        -- apply Hle. now left.
        -- apply Hle. now right.
    + destruct (IH q) as [Hin Hle]. split.
      * destruct Hin as [<- | Hin]; [now left | right; now right].
      * intros x [<- | [<- | Hx]].
        -- apply Hle. now left.
        -- apply Qltb_ge in E. eapply Qle_trans; [exact E|apply Hle; now left].
        -- apply Hle. now right.
Qed.

(** The minimum and the maximum of a column are cells of it and bound every
    number in it; both exist as soon as the column has a number. *)
Lemma col_min_max returns :
  numbers returns <> [] ->
  exists lo hi,
    col_min returns = Some lo /\ col_max returns = Some hi
    /\ In lo (numbers returns) /\ In hi (numbers returns)
    /\ forall x, In x (numbers returns) -> lo <= x /\ x <= hi.
Proof.
  unfold col_min, col_max. destruct (numbers returns) as [|q rest]; [congruence|].
  intros _. simpl.
  destruct (fold_min_spec rest q) as [Hmin Hlo].
  destruct (fold_max_spec rest q) as [Hmax Hhi].
  eexists _, _. split; [reflexivity|]. split; [reflexivity|].
  split; [exact Hmin|]. split; [exact Hmax|].
  intros x Hx. split; [now apply Hlo | now apply Hhi].
Qed.

Lemma col_min_none returns :
  numbers returns = [] -> col_min returns = NaN /\ col_max returns = NaN.
Proof. unfold col_min, col_max. now intros ->. Qed.

End MinMax.

Section Edges.

Variable b : Q.
Hypothesis b_pos : 0 < b.

Lemma Qdiv_le_mono x y : x <= y -> x / b <= y / b.
Proof.
  intros H. unfold Qdiv. apply Qmult_le_compat_r; [exact H|].
  apply Qinv_le_0_compat. now apply Qlt_le_weak.
Qed.

Lemma floor_le_ceiling lo hi : lo <= hi -> (Qfloor (lo / b) <= Qceiling (hi / b))%Z.
Proof.
  intros H. rewrite Zle_Qle.
  eapply Qle_trans; [apply Qfloor_le|].
  eapply Qle_trans; [apply (Qdiv_le_mono _ _ H)|]. apply Qle_ceiling.
Qed.

Lemma floor_to_le x : floor_to b x <= x.
Proof.
  unfold floor_to.
  assert (H : inject_Z (Qfloor (x / b)) * b <= x / b * b).
  { apply Qmult_le_compat_r; [apply Qfloor_le | now apply Qlt_le_weak]. }
  eapply Qle_trans; [exact H|]. apply Qle_lteq. right. field.
  intros E. rewrite E in b_pos. now apply Qlt_irrefl in b_pos.
Qed.

Lemma le_ceil_to x : x <= ceil_to b x.
Proof.
  unfold ceil_to.
  assert (H : x / b * b <= inject_Z (Qceiling (x / b)) * b).
  { apply Qmult_le_compat_r; [apply Qle_ceiling | now apply Qlt_le_weak]. }
  eapply Qle_trans; [|exact H]. apply Qle_lteq. right. field.
  intros E. rewrite E in b_pos. now apply Qlt_irrefl in b_pos.
Qed.

(** The edges: [lower + i * b] for [i] from 0 to the number of bins. *)
Lemma arange_edges lo hi :
  lo <= hi ->
  arange (floor_to b lo) (ceil_to b hi + b) b
  = map (fun i => floor_to b lo + inject_Z (Z.of_nat i) * b)
        (seq 0 (S (Z.to_nat (Qceiling (hi / b) - Qfloor (lo / b))))).
Proof.
  intros H. unfold arange. f_equal. f_equal.
  assert (E : (ceil_to b hi + b - floor_to b lo) / b
              == inject_Z (Qceiling (hi / b) - Qfloor (lo / b) + 1)).
  { unfold ceil_to, floor_to. rewrite inject_Z_plus.
    unfold Z.sub. rewrite inject_Z_plus, inject_Z_opp. field.
    intros E. rewrite E in b_pos. now apply Qlt_irrefl in b_pos. }
  rewrite (Qceiling_comp _ _ E), Qceiling_Z.
  pose proof (floor_le_ceiling lo hi H). lia.
Qed.

End Edges.

Lemma last_cons {A} (rest : list A) :
  forall e2 e1, List.last (e2 :: rest) e1 = List.last rest e2.
Proof.
  induction rest as [|x r IH]; intros e2 e1; [reflexivity|].
  change (List.last (e2 :: x :: r) e1) with (List.last (x :: r) e1).
  now rewrite !IH.
Qed.

Lemma sumZ_cons x l : sumZ (x :: l) = (x + sumZ l)%Z.
Proof. reflexivity. Qed.

Section Counting.

Variable a : list Q.

Ltac to_props :=
  repeat match goal with
  | H : Qltb _ _ = true |- _ => apply Qltb_lt in H
  | H : Qltb _ _ = false |- _ => apply Qltb_ge in H
  | H : Qle_bool _ _ = true |- _ => apply Qle_bool_iff in H
  | H : Qle_bool _ _ = false |- _ => apply Qle_bool_gt in H
  end.

Lemma count_half_open e0 e1 :
  e0 <= e1 ->
  (searchsorted_left a e1 - searchsorted_left a e0)%Z
  = observations a (mkBin e0 e1 false).
Proof.
  intros Hle. unfold searchsorted_left, observations, in_bin. simpl.
  induction a as [|x l IH]; [reflexivity|]. simpl.
  destruct (Qltb x e1) eqn:E1, (Qltb x e0) eqn:E0, (Qle_bool e0 x) eqn:E2;
    simpl; rewrite ?Nat2Z.inj_succ; try lia; to_props; exfalso; lra.
Qed.

Lemma count_closed e0 e1 :
  e0 <= e1 ->
  (searchsorted_right a e1 - searchsorted_left a e0)%Z
  = observations a (mkBin e0 e1 true).
Proof.
  intros Hle. unfold searchsorted_right, searchsorted_left, observations, in_bin.
  simpl. induction a as [|x l IH]; [reflexivity|]. simpl.
  destruct (Qle_bool x e1) eqn:E1, (Qltb x e0) eqn:E0, (Qle_bool e0 x) eqn:E2;
    simpl; rewrite ?Nat2Z.inj_succ; try lia; to_props; exfalso; lra.
Qed.

(** numpy's counts, obtained as differences of cumulative counts, are the
    numbers of values in the half-open bins and in the closed last bin. *)
Lemma counts_are_observations edges :
  ascending edges ->
  diffZ (search_sorted_inclusive a edges) = map (observations a) (bins_of edges).
Proof.
  induction edges as [|e0 rest IH]; [reflexivity|].
  destruct rest as [|e1 rest']; [reflexivity|].
  intros [Hle Hasc]. specialize (IH Hasc).
  destruct rest' as [|e2 rest''].
  - simpl. now rewrite count_closed.
  - change (search_sorted_inclusive a (e0 :: e1 :: e2 :: rest''))
      with (searchsorted_left a e0 :: search_sorted_inclusive a (e1 :: e2 :: rest'')).
    change (search_sorted_inclusive a (e1 :: e2 :: rest''))
      with (searchsorted_left a e1 :: search_sorted_inclusive a (e2 :: rest'')) in *.
    change (diffZ (searchsorted_left a e0 :: searchsorted_left a e1
                     :: search_sorted_inclusive a (e2 :: rest'')))
      with ((searchsorted_left a e1 - searchsorted_left a e0)%Z
              :: diffZ (searchsorted_left a e1 :: search_sorted_inclusive a (e2 :: rest''))).
    rewrite IH, count_half_open by exact Hle. reflexivity.
Qed.

(** The counts add up to the cumulative count at the last edge less the one
    at the first. *)
Lemma counts_telescope e0 e1 rest :
  sumZ (diffZ (search_sorted_inclusive a (e0 :: e1 :: rest)))
  = (searchsorted_right a (List.last rest e1) - searchsorted_left a e0)%Z.
Proof.
  revert e0 e1. induction rest as [|e2 rest IH]; intros e0 e1.
  - simpl. lia.
  - change (search_sorted_inclusive a (e0 :: e1 :: e2 :: rest))
      with (searchsorted_left a e0 :: search_sorted_inclusive a (e1 :: e2 :: rest)).
    pose proof (IH e1 e2) as H.
    change (search_sorted_inclusive a (e1 :: e2 :: rest))
      with (searchsorted_left a e1 :: search_sorted_inclusive a (e2 :: rest)) in *.
    change (diffZ (searchsorted_left a e0 :: searchsorted_left a e1
                     :: search_sorted_inclusive a (e2 :: rest)))
      with ((searchsorted_left a e1 - searchsorted_left a e0)%Z
              :: diffZ (searchsorted_left a e1 :: search_sorted_inclusive a (e2 :: rest))).
    rewrite last_cons, sumZ_cons, H. lia.
Qed.

Lemma none_below lower :
  (forall x, In x a -> lower <= x) -> searchsorted_left a lower = 0%Z.
Proof.
  intros H. unfold searchsorted_left. rewrite filter_none; [reflexivity|].
  intros x Hx. apply Qltb_ge. now apply H.
Qed.

Lemma all_up_to upper :
  (forall x, In x a -> x <= upper) -> searchsorted_right a upper = Z.of_nat (length a).
Proof.
  intros H. unfold searchsorted_right. f_equal. f_equal.
  induction a as [|x l IH]; [reflexivity|]. simpl.
  assert (E : Qle_bool x upper = true) by (apply Qle_bool_iff, H; now left).
  rewrite E. simpl. f_equal. apply IH. intros y Hy. apply H. now right.
Qed.

End Counting.

Section Grid.

Variables lower b : Q.
Hypothesis b_pos : 0 < b.

Let edge (i : nat) : Q := lower + inject_Z (Z.of_nat i) * b.

Lemma edge_succ i : edge (S i) == edge i + b.
Proof. unfold edge. rewrite Nat2Z.inj_succ. unfold Z.succ. rewrite inject_Z_plus. ring. Qed.

Lemma edges_ascending n : forall s, ascending (map edge (seq s n)).
Proof.
  induction n as [|n IH]; intros s; [exact I|].
  destruct n as [|n]; [exact I|].
  change (map edge (seq s (S (S n)))) with (edge s :: map edge (seq (S s) (S n))).
  change (map edge (seq (S s) (S n))) with (edge (S s) :: map edge (seq (S (S s)) n)).
  split.
  - rewrite edge_succ. lra.
  - apply (IH (S s)).
Qed.

Lemma edges_width n : forall s, Forall (fun d => d == b) (diffQ (map edge (seq s n))).
Proof.
  induction n as [|n IH]; intros s; [constructor|].
  destruct n as [|n]; [constructor|].
  change (map edge (seq s (S (S n)))) with (edge s :: map edge (seq (S s) (S n))).
  change (map edge (seq (S s) (S n))) with (edge (S s) :: map edge (seq (S (S s)) n)).
  change (diffQ (edge s :: edge (S s) :: map edge (seq (S (S s)) n)))
    with ((edge (S s) - edge s) :: diffQ (edge (S s) :: map edge (seq (S (S s)) n))).
  constructor.
  - rewrite edge_succ. ring.
  - apply (IH (S s)).
Qed.

Lemma edges_last n : forall s d, List.last (map edge (seq s (S n))) d = edge (s + n).
Proof.
  induction n as [|n IH]; intros s d.
  - simpl. now rewrite Nat.add_0_r.
  - change (map edge (seq s (S (S n)))) with (edge s :: map edge (seq (S s) (S n))).
    change (List.last (edge s :: map edge (seq (S s) (S n))) d)
      with (List.last (map edge (seq (S s) (S n))) d).
    rewrite IH. f_equal. lia.
Qed.

Lemma grid_shape n :
  grid lower b (S (S n))
  = edge 0 :: edge 1 :: map edge (seq 2 n).
Proof. reflexivity. Qed.

End Grid.

Section Shapes.

Lemma bins_of_left_edges (edges : list Q) :
  removelast edges = map left_edge (bins_of edges).
Proof.
  induction edges as [|e0 rest IH]; [reflexivity|].
  destruct rest as [|e1 rest']; [reflexivity|].
  change (removelast (e0 :: e1 :: rest')) with (e0 :: removelast (e1 :: rest')).
  rewrite IH. reflexivity.
Qed.

Lemma diffQ_length (edges : list Q) : length (diffQ edges) = length (bins_of edges).
Proof.
  induction edges as [|e0 rest IH]; [reflexivity|].
  destruct rest as [|e1 rest']; [reflexivity|].
  change (diffQ (e0 :: e1 :: rest')) with ((e1 - e0) :: diffQ (e1 :: rest')).
  simpl length. simpl in IH. now rewrite IH.
Qed.

(** Indicators add up to the number of bins that hold. *)
Lemma indicator_sum (x : Q) (bins : list Bin) :
  sumZ (map (observations [x]) bins)
  = Z.of_nat (length (List.filter (fun bin => in_bin bin x) bins)).
Proof.
  induction bins as [|bin bins IH]; [reflexivity|].
  simpl map. rewrite sumZ_cons, IH. unfold observations at 1. simpl.
  destruct (in_bin bin x); simpl length; lia.
Qed.

(** The density, rescaled, adds up to 100 times the share of the counted
    values in the total [T]. *)
Lemma rescaled_sum (b T : Q) :
  ~ b == 0 -> ~ T == 0 ->
  forall (n : list Z) (db : list Q),
    length n = length db ->
    Forall (fun d => d == b) db ->
    sumQ (map (fun d => d * 100 * b)
            (map (fun p => inject_Z p.1 / p.2 / T) (combine n db)))
    == inject_Z (sumZ n) * 100 / T.
Proof.
  intros Hb HT. induction n as [|x n IH]; intros [|d db] Hlen Hall;
    simpl in Hlen; try discriminate.
  - simpl. field. exact HT.
  - inversion Hall as [|? ? Hd Hrest]; subst.
    simpl map. rewrite sumZ_cons, inject_Z_plus.
    change (sumQ (?h :: ?t)) with (h + sumQ t).
    rewrite IH by (try lia; assumption). simpl fst. simpl snd.
    rewrite Hd. field. split; assumption.
Qed.

End Shapes.

Section Distribution.

Variable returns : list Float.
Variables b lo hi : Q.
Hypothesis b_pos : 0 < b.
Hypothesis Hmin : col_min returns = Some lo.
Hypothesis Hmax : col_max returns = Some hi.

Let lower := floor_to b lo.
Let upper := ceil_to b hi.
Let m := Z.to_nat (Qceiling (hi / b) - Qfloor (lo / b)).
Let edges := grid lower b (S m).

Lemma b_nonzero : ~ b == 0.
Proof. intros E. rewrite E in b_pos. now apply Qlt_irrefl in b_pos. Qed.

Lemma numbers_bounds :
  numbers returns <> []
  /\ forall x, In x (numbers returns) -> lo <= x /\ x <= hi.
Proof.
  assert (Hne : numbers returns <> []).
  { intros E. destruct (col_min_none returns E) as [H _].
    unfold NaN in H. congruence. }
  split; [exact Hne|].
  destruct (col_min_max returns Hne) as (lo' & hi' & H1 & H2 & _ & _ & Hb).
  assert (lo' = lo) by congruence. assert (hi' = hi) by congruence.
  subst. exact Hb.
Qed.

Lemma lo_le_hi : lo <= hi.
Proof.
  destruct numbers_bounds as [Hne Hb].
  destruct (numbers returns) as [|x rest]; [congruence|].
  destruct (Hb x (or_introl eq_refl)). eapply Qle_trans; eassumption.
Qed.

Lemma arange_is_grid : arange lower (upper + b) b = edges.
Proof. apply (arange_edges b b_pos lo hi lo_le_hi). Qed.

Lemma grid_ends_at_upper : lower + inject_Z (Z.of_nat m) * b == upper.
Proof.
  subst lower upper m. unfold floor_to, ceil_to.
  rewrite Z2Nat.id by (pose proof (floor_le_ceiling b b_pos lo hi lo_le_hi); lia).
  unfold Z.sub. rewrite inject_Z_plus, inject_Z_opp. ring.
Qed.

Lemma calculate_distribution_shape :
  calculate_distribution (frame_of returns) b
  = Return (combine (map label (removelast edges))
              (map (fun d => d * 100 * b) (histogram_density returns edges))).
Proof.
  unfold calculate_distribution, frame_of. simpl return_col. cbv iota.
  rewrite Hmin, Hmax. fold lower upper. rewrite arange_is_grid. reflexivity.
Qed.

Lemma edges_ascend : ascending edges.
Proof. apply (edges_ascending lower b b_pos). Qed.

Lemma counts_in_bins :
  histogram_counts returns edges
  = map (observations (numbers returns)) (bins_of edges).
Proof. apply counts_are_observations, edges_ascend. Qed.

Lemma distribution_length :
  length (map (fun d => d * 100 * b) (histogram_density returns edges))
  = length (bins_of edges).
Proof.
  unfold histogram_density. rewrite !List.length_map, List.length_combine.
  rewrite counts_in_bins, List.length_map, diffQ_length. lia.
Qed.

Lemma labels_length :
  length (map label (removelast edges)) = length (bins_of edges).
Proof. now rewrite bins_of_left_edges, !List.length_map. Qed.

(** With distinct bounds there is a bin. *)
Lemma bins_exist : lower < upper -> exists m', m = S m'.
Proof.
  intros Hlt. destruct m as [|m'] eqn:E; [|eauto]. exfalso.
  pose proof grid_ends_at_upper as H. rewrite E in H. simpl in H.
  assert (lower == upper) by (rewrite <- H; ring). lra.
Qed.

(** Between the first and the last edge a value is counted once by the
    cumulative counts at the two ends. *)
Lemma total_count (a : list Q) m' :
  m = S m' ->
  (forall x, In x a -> lo <= x /\ x <= hi) ->
  sumZ (diffZ (search_sorted_inclusive a edges)) = Z.of_nat (length a).
Proof.
  intros Em Hb. subst edges. rewrite Em, grid_shape, counts_telescope.
  pose proof (edges_last lower b m' 1%nat (lower + inject_Z (Z.of_nat 0) * b)) as Hl.
  change (map (fun i => lower + inject_Z (Z.of_nat i) * b) (seq 1 (S m')))
    with ((lower + inject_Z (Z.of_nat 1) * b)
            :: map (fun i => lower + inject_Z (Z.of_nat i) * b) (seq 2 m')) in Hl.
  rewrite last_cons in Hl. rewrite Hl.
  rewrite none_below, all_up_to; [lia | |].
  - intros x Hx. destruct (Hb x Hx) as [_ Hhi].
    pose proof grid_ends_at_upper as Hu. rewrite Em in Hu.
    replace (1 + m')%nat with (S m') by lia. rewrite Hu.
    eapply Qle_trans; [exact Hhi|]. apply (le_ceil_to b b_pos).
  - intros x Hx. destruct (Hb x Hx) as [Hlo _].
    assert (E0 : lower + inject_Z (Z.of_nat 0) * b == lower)
      by (change (inject_Z (Z.of_nat 0)) with 0; ring).
    rewrite E0. eapply Qle_trans; [apply (floor_to_le b b_pos lo) | exact Hlo].
Qed.

Lemma exactly_one_bin x :
  lower < upper ->
  In x (numbers returns) ->
  length (List.filter (fun bin => in_bin bin x) (bins_of edges)) = 1%nat.
Proof.
  intros Hlt Hx. destruct (bins_exist Hlt) as [m' Em].
  destruct numbers_bounds as [_ Hb].
  apply Nat2Z.inj. rewrite <- indicator_sum.
  rewrite <- (counts_are_observations [x] edges edges_ascend).
  rewrite (total_count [x] m' Em); [reflexivity|].
  intros y [<- | []]. now apply Hb.
Qed.

Lemma mass_is_100 :
  lower < upper ->
  sumQ (map (fun d => d * 100 * b) (histogram_density returns edges)) == 100.
Proof.
  intros Hlt. destruct (bins_exist Hlt) as [m' Em].
  destruct numbers_bounds as [Hne Hb].
  assert (Htot : sumZ (histogram_counts returns edges)
                 = Z.of_nat (length (numbers returns))).
  { unfold histogram_counts. now apply (total_count _ m'). }
  assert (HT : ~ inject_Z (sumZ (histogram_counts returns edges)) == 0).
  { rewrite Htot. intros E. change 0 with (inject_Z 0) in E.
    apply inject_Z_injective in E.
    destruct (numbers returns); [congruence | simpl in E; discriminate E]. }
  unfold histogram_density.
  rewrite (rescaled_sum b _ b_nonzero HT).
  - field. exact HT.
  - now rewrite counts_in_bins, List.length_map, diffQ_length.
  - apply (edges_width lower b).
Qed.

(** The bounds coincide only when every number is one and the same multiple
    of the bin width. *)
Lemma distinct_bounds :
  (~ exists k, all_at returns b k) -> lower < upper.
Proof.
  intros Hno. destruct (Qlt_le_dec lower upper) as [Hlt | Hge]; [exact Hlt|].
  exfalso. apply Hno. exists (Qfloor (lo / b)). intros x Hx.
  destruct numbers_bounds as [_ Hb]. destruct (Hb x Hx) as [Hlo Hhi].
  pose proof (floor_to_le b b_pos lo) as H1.
  pose proof (le_ceil_to b b_pos hi) as H2.
  fold lower in H1. fold upper in H2.
  change (inject_Z (Qfloor (lo / b)) * b) with lower. lra.
Qed.

End Distribution.

Section Labels.

Lemma Qltb_comp x x' y y' : x == x' -> y == y' -> Qltb x y = Qltb x' y'.
Proof. intros Hx Hy. unfold Qltb. now rewrite Hx, Hy. Qed.

Lemma round_half_even_comp x y : x == y -> round_half_even x = round_half_even y.
Proof.
  intros E. unfold round_half_even. rewrite (Qfloor_comp _ _ E).
  assert (Er : x - inject_Z (Qfloor y) == y - inject_Z (Qfloor y)) by now rewrite E.
  rewrite (Qltb_comp _ _ _ _ Er (Qeq_refl (1 # 2))).
  rewrite (Qltb_comp _ _ _ _ (Qeq_refl (1 # 2)) Er). reflexivity.
Qed.

Lemma Qeq_bool_false x y : ~ x == y -> Qeq_bool x y = false.
Proof.
  intros H. destruct (Qeq_bool x y) eqn:E; [|reflexivity].
  apply Qeq_bool_iff in E. contradiction.
Qed.

(** The label of an edge: ["0%"] at zero, a sign and the rounded magnitude
    elsewhere. *)
Lemma label_format e :
  (e == 0 -> label e = "0%"%string)
  /\ (0 < e -> label e = ("+" ++ digits (round_half_even e) ++ "%")%string)
  /\ (e < 0 -> label e = ("-" ++ digits (round_half_even (- e)) ++ "%")%string).
Proof.
  unfold label, format_0f. split; [|split]; intros H.
  - assert (E : Qeq_bool e 0 = true) by now apply Qeq_bool_iff.
    rewrite E. rewrite (Qltb_comp e 0 0 0 H (Qeq_refl 0)).
    assert (Ea : Qabs e == 0) by (rewrite H; reflexivity).
    rewrite (round_half_even_comp _ _ Ea). reflexivity.
  - rewrite Qeq_bool_false by lra.
    assert (E : Qltb e 0 = false) by (apply Qltb_ge; lra). rewrite E.
    rewrite (round_half_even_comp _ _ (Qabs_pos e (Qlt_le_weak _ _ H))).
    reflexivity.
  - rewrite Qeq_bool_false by lra.
    assert (E : Qltb e 0 = true) by now apply Qltb_lt. rewrite E.
    rewrite (round_half_even_comp _ _ (Qabs_neg e (Qlt_le_weak _ _ H))).
    reflexivity.
Qed.

End Labels.

(** C9, as the program has it at concrete inputs.  Two returns of 0 with
    bin width 1: one edge, no bin, and the value is the empty distribution,
    not an exception; a series of constant closes ends in the "no data"
    text.  With the bin width 0.1 and the single return 0.2, which is twice
    the width exactly, the two bounds are 0.2 as well, but the number of
    edges is the ceiling of a quotient that is rounded to just above 1:
    there are two edges and so one bin. *)
Lemma constant_returns_give_empty_distribution :
  calculate_distribution (frame_of [Some 0; Some 0]) 1 = Return []
  /\ arange (floor_to 1 0) (ceil_to 1 0 + 1) 1 = [0 + 0 * 1]
  /\ analyze_and_visualize [candle 1 100; candle 2 100; candle 3 100] "daily"
     = Return NoDataText
  /\ (let width := decimal_literal 1 10 in
      let x := decimal_literal 2 10 in
      floor_to_binary64 width x = Some x
      /\ ceil_to_binary64 width x = Some x
      /\ arange_length_binary64 x (x + width)%float width = Some 2%Z).
Proof. vm_compute. repeat split. Qed.

(** C9, amended.  With the default bin width 1, when every number of the
    column is one and the same integer, the lower and the upper bound
    coincide, there is a single edge and hence no bin, and the distribution
    is returned empty: a value, not a failure.  The operation is not total
    all the same: a column that is not empty but holds no number makes it
    raise [ValueError]. *)
Theorem single_multiple_gives_no_bins (returns : list Float) (k : Z) :
  numbers returns <> [] ->
  all_at returns 1 k ->
  (exists lo hi,
      col_min returns = Some lo /\ col_max returns = Some hi
      /\ floor_to 1 lo == ceil_to 1 hi
      /\ length (arange (floor_to 1 lo) (ceil_to 1 hi + 1) 1) = 1%nat
      /\ calculate_distribution (frame_of returns) 1 = Return [])
  /\ (forall column : list Float,
        column <> [] ->
        numbers column = [] ->
        calculate_distribution (frame_of column) 1 = Raise ValueError).
Proof.
  intros Hne Hall. split.
  - destruct (col_min_max returns Hne)
      as (lo & hi & Hmin & Hmax & Hlo & Hhi & Hbounds).
    exists lo, hi. split; [exact Hmin|]. split; [exact Hmax|].
    assert (Hb : 0 < 1) by reflexivity.
    assert (Efloor : Qfloor (lo / 1) = k).
    { rewrite <- (Qfloor_Z k). apply Qfloor_comp. rewrite (Hall lo Hlo). field. }
    assert (Eceil : Qceiling (hi / 1) = k).
    { rewrite <- (Qceiling_Z k). apply Qceiling_comp. rewrite (Hall hi Hhi). field. }
    assert (Hle : lo <= hi) by now apply Hbounds.
    split; [|split].
    + unfold floor_to, ceil_to. now rewrite Efloor, Eceil.
    + rewrite (arange_edges 1 Hb lo hi Hle), List.length_map, List.length_seq.
      now rewrite Efloor, Eceil, Z.sub_diag.
    + rewrite (calculate_distribution_shape returns 1 lo hi Hb Hmin Hmax).
      now rewrite Efloor, Eceil, Z.sub_diag.
  - intros column _ Hnone. unfold calculate_distribution, frame_of.
    cbn [return_col]. unfold col_min, col_max. rewrite Hnone. reflexivity.
Qed.

Lemma single_multiple_gives_no_bins_witness :
  calculate_distribution (frame_of [NaN; Some 3; Some 3]) 1 = Return []
  /\ calculate_distribution (frame_of [NaN]) 1 = Raise ValueError.
Proof.
  destruct (single_multiple_gives_no_bins [NaN; Some 3; Some 3] 3)
    as ((lo & hi & _ & _ & _ & _ & H) & Hraise).
  - discriminate.
  - intros x [<- | [<- | []]]; reflexivity.
  - split; [exact H|]. apply Hraise; [discriminate | reflexivity].
Defined.

(** C5, at the input on which the claim and the program part.  Three equal
    closes give the daily returns NaN, 0, 0; the bounds of the histogram
    meet at 0, there is a single edge and no bin, and the proportions of the
    distribution add up to 0, not to 100. *)
Theorem no_bins_no_mass :
  option_map reduced
    (return_col (analyze_periodic_distribution
       (mkFrame [candle 1 100; candle 2 100; candle 3 100] None) "daily").1)
  = Some [NaN; Some 0; Some 0]
  /\ exists d,
       calculate_distribution (frame_of [NaN; Some 0; Some 0]) 1 = Return d
       /\ sumQ (map snd d) == 0
       /\ ~ sumQ (map snd d) == 100.
Proof.
  split; [reflexivity|].
  exists []. split; [vm_compute; reflexivity|]. split; [reflexivity|].
  intros H. discriminate H.
Qed.

(** Everywhere else the default bin size conserves the mass: for a column
    whose numbers are not all one and the same integer the proportions add
    up to 100 (exactly so over the rationals). *)
Lemma default_width_mass (returns : list Float) :
  numbers returns <> [] ->
  (~ exists k, all_at returns 1 k) ->
  exists d,
    calculate_distribution (frame_of returns) 1 = Return d
    /\ sumQ (map snd d) == 100.
Proof.
  intros Hne Hno.
  assert (Hb : 0 < 1) by reflexivity.
  destruct (col_min_max returns Hne) as (lo & hi & Hmin & Hmax & _).
  eexists. split; [apply (calculate_distribution_shape returns 1 lo hi Hb Hmin Hmax)|].
  rewrite map_snd_combine.
  - apply (mass_is_100 returns 1 lo hi Hb Hmin Hmax).
    exact (distinct_bounds returns 1 lo hi Hb Hmin Hmax Hno).
  - rewrite (labels_length 1 lo hi).
    now rewrite (distribution_length returns 1 lo hi Hb).
Qed.

(** C6, as the program has it at concrete inputs.  Returns -1, 0, 1 with
    bin width 1, the example of the claim, give the edges -1, 0, 1 and
    therefore two bins, ["-1%"] with one observation and ["0%"] with two (the
    closed last bin holds both 0 and 1); there is no bin labelled ["+1%"].
    With the bin width 0.1 the lower bound computed for the return 3.4 is
    the product of 34 and 0.1, which is rounded to a float above 3.4: the
    value lies below the first edge and so in no bin. *)
Lemma three_values_two_bins :
  lowest_terms (calculate_distribution (frame_of [Some (-1); Some 0; Some 1]) 1)
  = Return [("-1%"%string, 100 # 3); ("0%"%string, 200 # 3)]
  /\ histogram_counts [Some (-1); Some 0; Some 1]
       (arange (floor_to 1 (-1)) (ceil_to 1 1 + 1) 1)
     = [1; 2]%Z
  /\ (let width := decimal_literal 1 10 in
      let x := decimal_literal 34 10 in
      exists lower,
        floor_to_binary64 width x = Some lower
        /\ PrimFloat.ltb x lower = true).
Proof.
  split; [vm_compute; reflexivity|]. split; [vm_compute; reflexivity|].
  eexists. split; vm_compute; reflexivity.
Qed.

(** C6, amended.  With the default bin width 1 the lower bound is the floor
    of the minimum and the upper bound the ceiling of the maximum, the edges
    run from the lower to the upper bound in steps of 1, the count of a bin
    is the number of values in it (half-open bins, the last one closed),
    every value lies in exactly one bin as soon as the bounds differ, and
    the label of a bin is formatted from its left edge.  The example of the
    claim has two bins. *)
Theorem histogram_bins (returns : list Float) (lo hi : Q) :
  col_min returns = Some lo ->
  col_max returns = Some hi ->
  let lower := floor_to 1 lo in
  let upper := ceil_to 1 hi in
  let edges := arange lower (upper + 1) 1 in
  (lower == inject_Z (Qfloor lo) /\ upper == inject_Z (Qceiling hi))
  /\ (exists m,
        edges = grid lower 1 (S m)
        /\ lower + inject_Z (Z.of_nat m) * 1 == upper)
  /\ histogram_counts returns edges
     = map (observations (numbers returns)) (bins_of edges)
  /\ (lower < upper ->
      forall x, In x (numbers returns) ->
        length (List.filter (fun bin => in_bin bin x) (bins_of edges)) = 1%nat)
  /\ (exists d,
        calculate_distribution (frame_of returns) 1 = Return d
        /\ map fst d = map (fun bin => label (left_edge bin)) (bins_of edges))
  /\ (forall e,
        (e == 0 -> label e = "0%"%string)
        /\ (0 < e -> label e = ("+" ++ digits (round_half_even e) ++ "%")%string)
        /\ (e < 0 -> label e = ("-" ++ digits (round_half_even (- e)) ++ "%")%string))
  /\ lowest_terms (calculate_distribution (frame_of [Some (-1); Some 0; Some 1]) 1)
     = Return [("-1%"%string, 100 # 3); ("0%"%string, 200 # 3)].
Proof.
  intros Hmin Hmax lower upper edges. subst edges lower upper.
  assert (Hb : 0 < 1) by reflexivity.
  rewrite (arange_is_grid returns 1 lo hi Hb Hmin Hmax).
  split; [|split; [|split; [|split; [|split; [|split]]]]].
  - unfold floor_to, ceil_to.
    assert (E1 : lo / 1 == lo) by field. assert (E2 : hi / 1 == hi) by field.
    rewrite (Qfloor_comp _ _ E1), (Qceiling_comp _ _ E2). split; ring.
  - eexists. split; [reflexivity|].
    apply (grid_ends_at_upper returns 1 lo hi Hb Hmin Hmax).
  - apply (counts_in_bins returns 1 lo hi Hb).
  - intros Hlt x Hx.
    apply (exactly_one_bin returns 1 lo hi Hb Hmin Hmax x Hlt Hx).
  - eexists.
    split; [apply (calculate_distribution_shape returns 1 lo hi Hb Hmin Hmax)|].
    rewrite map_fst_combine.
    + now rewrite bins_of_left_edges, List.map_map.
    + rewrite (labels_length 1 lo hi).
      now rewrite (distribution_length returns 1 lo hi Hb).
  - apply label_format.
  - vm_compute. reflexivity.
Qed.

Lemma histogram_bins_witness :
  floor_to 1 (-(5 # 2)) == -3
  /\ ceil_to 1 (7 # 3) == 3
  /\ length (List.filter (fun bin => in_bin bin (7 # 3))
               (bins_of (arange (floor_to 1 (-(5 # 2))) (ceil_to 1 (7 # 3) + 1) 1)))
     = 1%nat
  /\ label 1 = "+1%"%string.
Proof.
  destruct (histogram_bins [Some (-(5 # 2)); NaN; Some (7 # 3)] (-(5 # 2)) (7 # 3))
    as ((Hlower & Hupper) & _ & _ & Hone & _ & Hlabel & _).
  - reflexivity.
  - reflexivity.
  - split; [rewrite Hlower; reflexivity|]. split; [rewrite Hupper; reflexivity|].
    split.
    + apply Hone; [reflexivity|]. right. now left.
    + destruct (Hlabel 1) as (_ & Hpos & _). rewrite Hpos; reflexivity.
Defined.

(** * More of the synchroniser *)

Local Open Scope Z_scope.

Section Pass.

Variable src : Source.


(** The effect of one pass of the loop body on the files and the writes. *)
Lemma update_coin_effect coin w :
  writes (update_coin src coin w).2 = writes w
  /\ files (update_coin src coin w).2 = files w
  \/ exists new_rows,
       new_rows <> []
       /\ (update_coin src coin w).1 = Return tt
       /\ writes (update_coin src coin w).2 = writes w ++ [ToCsv (file_name coin)]
       /\ files (update_coin src coin w).2
          = <[file_name coin := stored coin w ++ new_rows]> (files w).
Proof.
  destruct (stored coin w) as [|e0 rest] eqn:Hs.
  - destruct (update_coin_unstored src coin w Hs) as (w0 & Hr & Hf & Hw & ->).
    pose proof (fetch_loop_files src 3 coin 200 None w0) as Hfiles.
    pose proof (fetch_loop_writes src 3 coin 200 None w0) as Hwrites.
    fold (fetch_historical_data src coin 200 None w0) in Hfiles, Hwrites.
    destruct (fetch_historical_data src coin 200 None w0) as [[new_data|] w1];
      cbn [fst snd] in *.
    + destruct new_data as [|c new_rows].
      * left. rewrite merge_and_save_nothing. cbn [fst snd].
        rewrite writes_emit. simpl. rewrite app_nil_r. split; congruence.
      * right. exists (c :: new_rows). split; [discriminate|].
        rewrite merge_and_save_rows by discriminate. cbn [fst snd].
        split; [reflexivity|]. split.
        -- rewrite writes_emit. simpl. rewrite app_nil_r.
           unfold save_coin_data. rewrite writes_emit. simpl.
           unfold writes in *. simpl. now rewrite Hwrites, Hw.
        -- simpl. now rewrite Hfiles, Hf.
    + left. simpl. split; congruence.
  - assert (Hf : files w !! file_name coin = Some (e0 :: rest)).
    { unfold stored in Hs. destruct (files w !! file_name coin); simpl in Hs;
        congruence. }
    rewrite (update_coin_stored src coin w (e0 :: rest) Hf) by discriminate.
    cbv zeta.
    set (w0 := emit (Printed (Updating coin)) w).
    assert (Hw0 : writes w0 = writes w)
      by (unfold w0; rewrite writes_emit; simpl; now rewrite app_nil_r).
    assert (Hf0 : files w0 = files w) by reflexivity.
    pose proof (fetch_loop_files src 3 coin 200 (Some (max_date (e0 :: rest))) w0) as Hfiles.
    pose proof (fetch_loop_writes src 3 coin 200 (Some (max_date (e0 :: rest))) w0) as Hwrites.
    fold (fetch_historical_data src coin 200 (Some (max_date (e0 :: rest))) w0)
      in Hfiles, Hwrites.
    destruct (fetch_historical_data src coin 200 _ w0) as [[new_data|] w1];
      cbn [fst snd] in *.
    + destruct (newer_than (max_date (e0 :: rest)) new_data) as [|c new_rows];
        cbn [fst snd].
      * left. rewrite writes_emit. simpl. rewrite app_nil_r. split; congruence.
      * right. exists (c :: new_rows). split; [discriminate|].
        split; [reflexivity|]. split.
        -- rewrite writes_emit. simpl. rewrite app_nil_r.
           unfold save_coin_data. rewrite writes_emit. simpl.
           unfold writes in *. simpl. now rewrite Hwrites, Hw0.
        -- simpl. now rewrite Hfiles, Hf0.
    + left. split; congruence.
Qed.

End Pass.

(** X1.  One pass of the loop body writes at most one file, the coin's own;
    every other file is left as it was, and the coin's series keeps its rows
    at the front. *)
Theorem one_pass_writes_own_file_once (src : Source) (coin : string) (w : World) :
  exists ws more,
    writes (update_coin src coin w).2 = writes w ++ ws
    /\ (ws = [] \/ ws = [ToCsv (file_name coin)])
    /\ (forall f, f <> file_name coin ->
          files (update_coin src coin w).2 !! f = files w !! f)
    /\ stored coin (update_coin src coin w).2 = stored coin w ++ more.
Proof.
  destruct (update_coin_effect src coin w)
    as [[Hw Hf] | (new_rows & _ & _ & Hw & Hf)].
  - exists [], []. rewrite Hw, !app_nil_r. split; [reflexivity|].
    split; [now left|]. split; [now rewrite Hf|].
    unfold stored. now rewrite Hf.
  - exists [ToCsv (file_name coin)], new_rows. split; [exact Hw|].
    split; [now right|]. split.
    + intros f Hne. rewrite Hf. now apply lookup_insert_ne.
    + unfold stored at 1. rewrite Hf, lookup_insert_eq. reflexivity.
Qed.

Section Batch.

Variable src : Source.

Lemma update_coin_extends coin w f df :
  files w !! f = Some df ->
  exists more, files (update_coin src coin w).2 !! f = Some (df ++ more).
Proof.
  intros Hf.
  destruct (update_coin_effect src coin w)
    as [[_ Hfiles] | (new_rows & _ & _ & _ & Hfiles)]; rewrite Hfiles.
  - exists []. now rewrite app_nil_r.
  - destruct (decide (file_name coin = f)) as [<- | Hne].
    + exists new_rows. rewrite lookup_insert_eq. unfold stored. now rewrite Hf.
    + exists []. rewrite lookup_insert_ne by exact Hne. now rewrite app_nil_r.
Qed.

Lemma for_coins_extends coins :
  forall w f df,
    files w !! f = Some df ->
    exists more, files (for_coins src coins w).2 !! f = Some (df ++ more).
Proof.
  induction coins as [|coin rest IH]; intros w f df Hf; simpl.
  - exists []. now rewrite app_nil_r.
  - destruct (update_coin_extends coin w f df Hf) as [more1 H1].
    destruct (update_coin src coin w) as [[[]|e] w1]; cbn [fst snd] in *.
    + destruct (IH w1 f (df ++ more1) H1) as [more2 H2].
      exists (more1 ++ more2). now rewrite app_assoc.
    + now exists more1.
Qed.

End Batch.

(** X2.  A batch never removes a file or a row: whatever was stored for a
    file before [update_all_coins] is still there afterwards, at the front
    of what is stored then, whether the batch ends normally or with an
    exception. *)
Theorem batch_only_extends (src : Source) (w : World) (f : string) (df : DataFrame) :
  files w !! f = Some df ->
  exists more, files (update_all_coins src w).2 !! f = Some (df ++ more).
Proof.
  intros Hf. unfold update_all_coins.
  destruct (fetch_coin_list src w) as [coins w0] eqn:E.
  assert (Hfiles : files w0 = files w).
  { unfold fetch_coin_list in E. destruct (status_code _ =? 200); now inversion E. }
  apply for_coins_extends. now rewrite Hfiles.
Qed.

Lemma batch_only_extends_witness :
  exists more,
    files (update_all_coins (eth_answers 429) with_btc).2 !! "KRW-BTC_data.csv"%string
    = Some ([candle 1 100; candle 2 110] ++ more).
Proof.
  apply (batch_only_extends (eth_answers 429) with_btc). reflexivity.
Defined.

(** X3.  An answer with a status other than 200 and 429 is not retried: the
    fetch makes that one request, sleeps not at all and hands back the
    frame without rows; the pass for the coin then ends normally with the
    "No new data" message and the files as they were. *)
Theorem failed_status_is_not_retried (src : Source) (coin : string) (w : World) :
  (forall to,
     status_code (candles_days src (requests w) (split_0 coin) 200 to) <> 200
     /\ status_code (candles_days src (requests w) (split_0 coin) 200 to) <> 429) ->
  (forall to w0,
     requests w0 = requests w ->
     (fetch_historical_data src coin 200 to w0).1 = Some []
     /\ requests (fetch_historical_data src coin 200 to w0).2 = S (requests w)
     /\ sleeps (trace (fetch_historical_data src coin 200 to w0).2) = sleeps (trace w0))
  /\ (update_coin src coin w).1 = Return tt
  /\ files (update_coin src coin w).2 = files w
  /\ writes (update_coin src coin w).2 = writes w
  /\ requests (update_coin src coin w).2 = S (requests w)
  /\ exists t, trace (update_coin src coin w).2 = t ++ [Printed (NoNewData coin)].
Proof.
  intros Hstatus.
  assert (Hfetch : forall to w0, requests w0 = requests w ->
            fetch_historical_data src coin 200 to w0
            = (Some [], emit (Printed (FailedToFetch coin
                   (status_code (candles_days src (requests w) (split_0 coin) 200 to))))
                 (emit (Get (CandlesDays (split_0 coin) 200 to)) w0))).
  { intros to w0 Hr. unfold fetch_historical_data. simpl. rewrite Hr.
    destruct (Hstatus to) as [H200 H429].
    apply Z.eqb_neq in H200, H429. now rewrite H200, H429. }
  split.
  - intros to w0 Hr. rewrite (Hfetch to w0 Hr). cbn [fst snd].
    split; [reflexivity|]. split.
    + rewrite !requests_emit. simpl. now rewrite Hr.
    + simpl. rewrite !sleeps_app. simpl. now rewrite !app_nil_r.
  - destruct (stored coin w) as [|e0 rest] eqn:Hs.
    + destruct (update_coin_unstored src coin w Hs) as (w0 & Hr & Hf & Hw & ->).
      rewrite (Hfetch None w0 Hr). cbn [fst snd].
      rewrite merge_and_save_nothing. cbn [fst snd].
      rewrite !writes_emit, !requests_emit. simpl. rewrite !app_nil_r.
      split; [reflexivity|]. split; [exact Hf|]. split; [exact Hw|].
      split; [now rewrite Hr|]. now eexists.
    + assert (Hf : files w !! file_name coin = Some (e0 :: rest)).
      { unfold stored in Hs. destruct (files w !! file_name coin); simpl in Hs;
          congruence. }
      rewrite (update_coin_stored src coin w (e0 :: rest) Hf) by discriminate.
      cbv zeta.
      rewrite (Hfetch (Some (max_date (e0 :: rest))) (emit (Printed (Updating coin)) w))
        by now rewrite requests_emit.
      cbn [fst snd newer_than List.filter].
      rewrite !writes_emit, !requests_emit. simpl. rewrite !app_nil_r.
      split; [reflexivity|]. split; [reflexivity|]. split; [reflexivity|].
      split; [reflexivity|]. now eexists.
Qed.

Lemma failed_status_is_not_retried_witness :
  (update_coin (eth_answers 500) eth with_btc).1 = Return tt
  /\ files (update_coin (eth_answers 500) eth with_btc).2 = files with_btc.
Proof.
  destruct (failed_status_is_not_retried (eth_answers 500) eth with_btc)
    as (_ & H1 & H2 & _).
  - intros to. split; discriminate.
  - now split.
Defined.

(** X4.  The first sync of a coin, with nothing stored for it, adopts the
    answered page oldest first: the coin's file is the reversed answer. *)
Theorem first_sync_adopts_page (src : Source) (coin : string) (w : World)
    (data : DataFrame) :
  stored coin w = [] ->
  candles_days src (requests w) (split_0 coin) 200 None = mkResponse 200 data ->
  data <> [] ->
  (update_coin src coin w).1 = Return tt
  /\ files (update_coin src coin w).2 = <[file_name coin := rev data]> (files w)
  /\ stored coin (update_coin src coin w).2 = rev data.
Proof.
  intros Hs Hresp Hdata.
  destruct (update_coin_unstored src coin w Hs) as (w0 & Hr & Hf & Hw & ->).
  unfold fetch_historical_data.
  rewrite <- Hr in Hresp.
  rewrite (fetch_loop_200 src coin 200 None 2 w0 data Hresp Hdata). cbn [fst snd].
  assert (Hrev : rev data <> []).
  { destruct data as [|c rest]; [congruence|]. simpl.
    intros E. apply app_eq_nil in E. destruct E as [_ E]. discriminate E. }
  rewrite merge_and_save_rows by exact Hrev. cbn [fst snd]. simpl.
  split; [reflexivity|]. split; [now rewrite Hf|].
  unfold stored. simpl. now rewrite lookup_insert_eq.
Qed.

Lemma first_sync_adopts_page_witness :
  stored btc (update_coin (eth_answers 200) btc fresh).2
  = [candle 1 100; candle 2 110; candle 3 120].
Proof.
  destruct (first_sync_adopts_page (eth_answers 200) btc fresh page) as (_ & _ & H).
  - reflexivity.
  - reflexivity.
  - discriminate.
  - exact H.
Defined.

Section Order.

Lemma fold_max_bounds (l : list Z) :
  forall a, a <= fold_left Z.max l a /\ forall x, In x l -> x <= fold_left Z.max l a.
Proof.
  induction l as [|y l IH]; intros a; simpl.
  - split; [lia | intros x []].
  - destruct (IH (Z.max a y)) as [H1 H2]. split; [lia|].
    intros x [<- | Hx]; [lia | now apply H2].
Qed.

Lemma max_date_bounds (df : DataFrame) (c : Candle) :
  In c df -> candle_date_time_kst c <= max_date df.
Proof.
  destruct df as [|d rest]; [intros []|]. unfold max_date.
  destruct (fold_max_bounds (map candle_date_time_kst rest) (candle_date_time_kst d))
    as [H1 H2].
  intros [<- | Hc]; [exact H1|]. apply H2. now apply List.in_map.
Qed.

Lemma decreasing_rev (df : DataFrame) : decreasing df -> increasing (rev df).
Proof.
  unfold decreasing, increasing. induction 1 as [|c l Hl IH Hc]; simpl.
  - constructor.
  - apply StronglySorted_app_2; [|exact IH|repeat constructor].
    intros x1 x2 Hx1 Hx2. apply list_elem_of_In in Hx1, Hx2.
    destruct Hx2 as [<- | []]. apply List.in_rev in Hx1.
    rewrite List.Forall_forall in Hc. exact (Hc x1 Hx1).
Qed.

Lemma increasing_filter (f : Candle -> bool) (df : DataFrame) :
  increasing df -> increasing (List.filter f df).
Proof.
  unfold increasing. induction 1 as [|c l Hl IH Hc]; simpl; [constructor|].
  destruct (f c); [|exact IH]. constructor; [exact IH|].
  rewrite List.Forall_forall in *. intros x Hx.
  apply List.filter_In in Hx. now apply Hc.
Qed.

Lemma increasing_append (existing new_rows : DataFrame) :
  increasing existing ->
  increasing new_rows ->
  Forall (fun c => max_date existing < candle_date_time_kst c) new_rows ->
  increasing (existing ++ new_rows).
Proof.
  intros He Hn Hnew. apply StronglySorted_app_2; [|exact He|exact Hn].
  intros x1 x2 Hx1 Hx2. apply list_elem_of_In in Hx1, Hx2.
  rewrite List.Forall_forall in Hnew. specialize (Hnew x2 Hx2).
  pose proof (max_date_bounds existing x1 Hx1). unfold older. lia.
Qed.

End Order.

Section Ordered.

Variable src : Source.

Hypothesis newest_first :
  forall i mkt count to, decreasing (json (candles_days src i mkt count to)).

Lemma fetched_increasing coin count to w new_data :
  (fetch_historical_data src coin count to w).1 = Some new_data ->
  increasing new_data.
Proof.
  intros H. apply fetch_loop_some in H.
  destruct H as [-> | (i & _ & _ & ->)]; [constructor|].
  apply decreasing_rev, newest_first.
Qed.

(** What a pass stores is in order when what was stored was. *)
Lemma update_coin_ordered coin w :
  (forall f df, files w !! f = Some df -> increasing df) ->
  forall f df, files (update_coin src coin w).2 !! f = Some df -> increasing df.
Proof.
  intros Hinv.
  assert (Hst : increasing (stored coin w)).
  { unfold stored. destruct (files w !! file_name coin) eqn:E; simpl;
      [now apply (Hinv _ _ E) | constructor]. }
  assert (Hgoal : files (update_coin src coin w).2 = files w
                  \/ exists new_rows,
                       increasing (stored coin w ++ new_rows)
                       /\ files (update_coin src coin w).2
                          = <[file_name coin := stored coin w ++ new_rows]> (files w)).
  { destruct (stored coin w) as [|e0 rest] eqn:Hs.
    - destruct (update_coin_unstored src coin w Hs) as (w0 & Hr & Hf & Hw & ->).
      pose proof (fetch_loop_files src 3 coin 200 None w0) as Hfiles.
      fold (fetch_historical_data src coin 200 None w0) in Hfiles.
      pose proof (fetched_increasing coin 200 None w0) as Hinc.
      destruct (fetch_historical_data src coin 200 None w0) as [[new_data|] w1];
        cbn [fst snd] in *.
      + destruct new_data as [|c new_rows].
        * left. rewrite merge_and_save_nothing. simpl. congruence.
        * right. exists (c :: new_rows). split; [now apply Hinc|].
          rewrite merge_and_save_rows by discriminate. simpl.
          now rewrite Hfiles, Hf.
      + left. simpl. congruence.
    - assert (Hf : files w !! file_name coin = Some (e0 :: rest)).
      { unfold stored in Hs. destruct (files w !! file_name coin); simpl in Hs;
          congruence. }
      rewrite (update_coin_stored src coin w (e0 :: rest) Hf) by discriminate.
      cbv zeta.
      set (w0 := emit (Printed (Updating coin)) w).
      pose proof (fetch_loop_files src 3 coin 200 (Some (max_date (e0 :: rest))) w0)
        as Hfiles.
      fold (fetch_historical_data src coin 200 (Some (max_date (e0 :: rest))) w0)
        in Hfiles.
      pose proof (fetched_increasing coin 200 (Some (max_date (e0 :: rest))) w0) as Hinc.
      destruct (fetch_historical_data src coin 200 _ w0) as [[new_data|] w1];
        cbn [fst snd] in *.
      + pose proof (newer_than_Forall (max_date (e0 :: rest)) new_data) as Hnew.
        pose proof (increasing_filter
                      (fun c => max_date (e0 :: rest) <? candle_date_time_kst c)
                      new_data (Hinc _ eq_refl)) as Hfil.
        fold (newer_than (max_date (e0 :: rest)) new_data) in Hfil.
        destruct (newer_than (max_date (e0 :: rest)) new_data) as [|c new_rows];
          cbn [fst snd].
        * left. simpl. now rewrite Hfiles.
        * right. exists (c :: new_rows).
          split; [now apply increasing_append|]. simpl. now rewrite Hfiles.
      + left. now rewrite Hfiles. }
  intros f df. destruct Hgoal as [-> | (new_rows & Hinc & ->)]; [apply Hinv|].
  destruct (decide (file_name coin = f)) as [<- | Hne].
  - rewrite lookup_insert_eq. now intros [= <-].
  - rewrite lookup_insert_ne by exact Hne. apply Hinv.
Qed.

Lemma for_coins_ordered coins :
  forall w,
    (forall f df, files w !! f = Some df -> increasing df) ->
    forall f df, files (for_coins src coins w).2 !! f = Some df -> increasing df.
Proof.
  induction coins as [|coin rest IH]; intros w Hinv; simpl; [exact Hinv|].
  pose proof (update_coin_ordered coin w Hinv) as H1.
  destruct (update_coin src coin w) as [[[]|e] w1]; cbn [fst snd] in *.
  - now apply IH.
  - exact H1.
Qed.

End Ordered.

(** X5.  Against an exchange whose answers are strictly newest first, a batch
    keeps every stored series in strictly increasing order of timestamps
    (so without a repeated timestamp), if the series were so before. *)
Theorem batch_keeps_series_ordered (src : Source) (w : World) :
  (forall i mkt count to, decreasing (json (candles_days src i mkt count to))) ->
  (forall f df, files w !! f = Some df -> increasing df) ->
  forall f df, files (update_all_coins src w).2 !! f = Some df -> increasing df.
Proof.
  intros Hsrc Hinv. unfold update_all_coins.
  destruct (fetch_coin_list src w) as [coins w0] eqn:E.
  assert (Hfiles : files w0 = files w).
  { unfold fetch_coin_list in E. destruct (status_code _ =? 200); now inversion E. }
  apply (for_coins_ordered src Hsrc). now rewrite Hfiles.
Qed.

Lemma batch_keeps_series_ordered_witness :
  increasing [candle 1 100; candle 2 110; candle 3 120].
Proof.
  apply (batch_keeps_series_ordered (eth_answers 200) with_btc)
    with (f := "KRW-BTC_data.csv"%string).
  - intros i mkt count to. simpl.
    destruct (String.eqb mkt "KRW-ETH"); simpl;
      repeat constructor; unfold flip, older; simpl; lia.
  - intros f df H. unfold with_btc in H. cbn [files] in H.
    apply lookup_singleton_Some in H as [_ <-].
    repeat constructor; unfold older; simpl; lia.
  - vm_compute. reflexivity.
Defined.

Section NeverLimited.

Variable src : Source.

Hypothesis never_limited :
  forall i mkt count to, status_code (candles_days src i mkt count to) <> 429.

Lemma fetch_once coin count to w :
  exists df w',
    fetch_historical_data src coin count to w = (Some df, w')
    /\ requests w' = S (requests w)
    /\ exists t, trace w' = trace w ++ t.
Proof.
  unfold fetch_historical_data. simpl.
  destruct (status_code _ =? 200) eqn:E200.
  - destruct (negb (empty _)); eexists _, _; (split; [reflexivity|]);
      rewrite ?requests_emit; simpl; (split; [reflexivity|]);
      rewrite <- ?app_assoc; eauto.
  - destruct (status_code _ =? 429) eqn:E429.
    + apply Z.eqb_eq in E429. now apply never_limited in E429.
    + eexists _, _. split; [reflexivity|]. rewrite ?requests_emit. simpl.
      split; [reflexivity|]. rewrite <- ?app_assoc. eauto.
Qed.

Lemma merge_and_save_once coin existing new_data w :
  (merge_and_save coin existing (Some new_data) w).1 = Return tt
  /\ requests (merge_and_save coin existing (Some new_data) w).2 = requests w
  /\ exists t, trace (merge_and_save coin existing (Some new_data) w).2 = trace w ++ t.
Proof.
  unfold merge_and_save. destruct (negb (empty new_data)); cbn [fst snd].
  - unfold save_coin_data. rewrite !requests_emit. simpl.
    split; [reflexivity|]. split; [reflexivity|]. rewrite <- app_assoc. eauto.
  - rewrite requests_emit. simpl. eauto.
Qed.

(** Without a rate-limit answer a pass makes one request, ends normally and
    leaves its mark in the trace. *)
Lemma update_coin_once coin w :
  (update_coin src coin w).1 = Return tt
  /\ requests (update_coin src coin w).2 = S (requests w)
  /\ exists t, trace (update_coin src coin w).2
               = trace w ++ Printed (Updating coin) :: t.
Proof.
  unfold update_coin, load_coin_data.
  change (files (emit (Printed (Updating coin)) w)) with (files w).
  destruct (files w !! file_name coin) as [existing|].
  - destruct (empty existing) eqn:Ee.
    + destruct (fetch_once coin 200 None
                  (emit (Printed (FetchingAll coin)) (emit (Printed (Updating coin)) w)))
        as (df & w1 & -> & Hr & t1 & Ht1).
      destruct (merge_and_save_once coin existing df w1) as (H1 & H2 & t2 & Ht2).
      split; [exact H1|]. split.
      * rewrite H2, Hr, !requests_emit. reflexivity.
      * rewrite Ht2, Ht1. simpl. rewrite <- !app_assoc. simpl. eauto.
    + destruct (fetch_once coin 200 (Some (max_date existing))
                  (emit (Printed (Updating coin)) w))
        as (df & w1 & -> & Hr & t1 & Ht1).
      destruct (empty df).
      * cbn [fst snd]. rewrite requests_emit, Hr, requests_emit. simpl.
        split; [reflexivity|]. split; [reflexivity|].
        rewrite Ht1. simpl. rewrite <- !app_assoc. simpl. eauto.
      * destruct (merge_and_save_once coin existing
                    (newer_than (max_date existing) df) w1) as (H1 & H2 & t2 & Ht2).
        split; [exact H1|]. split.
        -- rewrite H2, Hr, !requests_emit. reflexivity.
        -- rewrite Ht2, Ht1. simpl. rewrite <- !app_assoc. simpl. eauto.
  - simpl empty. cbv iota.
    destruct (fetch_once coin 200 None
                (emit (Printed (FetchingAll coin))
                   (emit (Printed (NoSavedData coin)) (emit (Printed (Updating coin)) w))))
      as (df & w1 & -> & Hr & t1 & Ht1).
    destruct (merge_and_save_once coin [] df w1) as (H1 & H2 & t2 & Ht2).
    split; [exact H1|]. split.
    + rewrite H2, Hr, !requests_emit. reflexivity.
    + rewrite Ht2, Ht1. simpl. rewrite <- !app_assoc. simpl. eauto.
Qed.

Lemma for_coins_once coins :
  forall w,
    (for_coins src coins w).1 = Return tt
    /\ requests (for_coins src coins w).2 = (requests w + length coins)%nat
    /\ (exists t, trace (for_coins src coins w).2 = trace w ++ t)
    /\ forall coin, In coin coins ->
         In (Printed (Updating coin)) (trace (for_coins src coins w).2).
Proof.
  induction coins as [|coin rest IH]; intros w; simpl.
  - split; [reflexivity|]. split; [lia|]. split; [exists []; now rewrite app_nil_r|].
    intros coin [].
  - destruct (update_coin_once coin w) as (Hret & Hreq & t1 & Ht1).
    destruct (update_coin src coin w) as [[[]|e] w1]; cbn [fst snd] in *;
      [|discriminate Hret].
    destruct (IH w1) as (H1 & H2 & (t2 & Ht2) & H4).
    split; [exact H1|]. split; [lia|]. split.
    + exists ((Printed (Updating coin) :: t1) ++ t2).
      now rewrite Ht2, Ht1, <- app_assoc.
    + intros c [<- | Hc]; [|now apply H4].
      rewrite Ht2, Ht1. apply List.in_or_app. left.
      apply List.in_or_app. right. now left.
Qed.

End NeverLimited.

(** X6.  Against an exchange that never answers 429 the batch ends normally,
    passes over every coin of the list, and makes one request for the list
    and exactly one for each coin. *)
Theorem batch_without_rate_limit (src : Source) (w : World) :
  (forall i mkt count to, status_code (candles_days src i mkt count to) <> 429) ->
  let coins := (fetch_coin_list src w).1 in
  (update_all_coins src w).1 = Return tt
  /\ requests (update_all_coins src w).2 = (requests w + 1 + length coins)%nat
  /\ forall coin, In coin coins ->
       In (Printed (Updating coin)) (trace (update_all_coins src w).2).
Proof.
  intros Hsrc coins. subst coins. unfold update_all_coins.
  destruct (fetch_coin_list src w) as [coins w0] eqn:E. cbn [fst].
  assert (Hreq : requests w0 = S (requests w)).
  { unfold fetch_coin_list in E. destruct (status_code _ =? 200); inversion E;
      now rewrite !requests_emit. }
  destruct (for_coins_once src Hsrc coins w0) as (H1 & H2 & _ & H4).
  split; [exact H1|]. split; [lia | exact H4].
Qed.

Lemma batch_without_rate_limit_witness :
  (update_all_coins (eth_answers 500) fresh).1 = Return tt
  /\ requests (update_all_coins (eth_answers 500) fresh).2 = 4%nat.
Proof.
  destruct (batch_without_rate_limit (eth_answers 500) fresh) as (H1 & H2 & _).
  - intros i mkt count to. simpl.
    destruct (String.eqb mkt "KRW-ETH"); discriminate.
  - split; [exact H1 | exact H2].
Defined.

(** * Names and files *)

Section Names.

Lemma chars_append (s t : string) : chars (s ++ t) = chars s ++ chars t.
Proof. induction s as [|a s IH]; simpl; [reflexivity | now rewrite IH]. Qed.

Lemma chars_inj (s t : string) : chars s = chars t -> s = t.
Proof.
  revert t. induction s as [|a s IH]; intros [|b t] H; simpl in H;
    try discriminate; [reflexivity|].
  injection H as -> H. f_equal. now apply IH.
Qed.

Lemma append_inj_r (s s' t : string) : (s ++ t = s' ++ t)%string -> s = s'.
Proof.
  intros H. apply chars_inj. apply (f_equal chars) in H.
  rewrite !chars_append in H. now apply app_inv_tail in H.
Qed.

Lemma file_name_inj (coin coin' : string) :
  file_name coin = file_name coin' <-> split_0 coin = split_0 coin'.
Proof.
  unfold file_name. split; [apply append_inj_r | now intros ->].
Qed.

Lemma split_0_idem (coin : string) : split_0 (split_0 coin) = split_0 coin.
Proof.
  induction coin as [|a s IH]; simpl; [reflexivity|].
  destruct (Ascii.eqb a " ") eqn:E; simpl; [reflexivity|].
  now rewrite E, IH.
Qed.

Lemma split_0_append (m rest : string) :
  ~ In " "%char (chars m) -> split_0 (m ++ String " " rest) = m.
Proof.
  induction m as [|a m IH]; simpl; intros H; [reflexivity|].
  destruct (Ascii.eqb a " ") eqn:E.
  - apply Ascii.eqb_eq in E. subst a. exfalso. apply H. now left.
  - f_equal. apply IH. intros Hin. apply H. now right.
Qed.

Lemma endswith_unfold (s suffix : string) :
  endswith s suffix
  = if String.eqb s suffix then true
    else match s with
         | EmptyString => false
         | String _ rest => endswith rest suffix
         end.
Proof. destruct s; reflexivity. Qed.

Lemma endswith_refl (s : string) : endswith s s = true.
Proof. now rewrite endswith_unfold, String.eqb_refl. Qed.

Lemma endswith_append (m s : string) : endswith (m ++ s) s = true.
Proof.
  induction m as [|a m IH]; [apply endswith_refl|].
  rewrite endswith_unfold.
  change ((String a m ++ s)%string) with (String a (m ++ s)).
  now destruct (String.eqb (String a (m ++ s)) s).
Qed.

Lemma split_first_append (m : string) :
  ~ In "_"%char (chars m) ->
  split_first "_data.csv" (m ++ "_data.csv") = m.
Proof.
  induction m as [|a m IH]; intros H; [reflexivity|].
  change ((String a m ++ "_data.csv")%string) with (String a (m ++ "_data.csv")).
  unfold split_first; fold split_first.
  assert (E : String.prefix "_data.csv" (String a (m ++ "_data.csv")) = false).
  { change (String.prefix "_data.csv" (String a (m ++ "_data.csv")))
      with (if ascii_dec "_" a
            then String.prefix "data.csv" (m ++ "_data.csv") else false).
    destruct (ascii_dec "_" a) as [<- | _]; [|reflexivity].
    exfalso. apply H. now left. }
  rewrite E. f_equal. apply IH. intros Hin. apply H. now right.
Qed.

Lemma listdir_spec (w : World) (f : string) :
  In f (listdir w) <-> exists df, files w !! f = Some df.
Proof.
  unfold listdir. rewrite List.in_map_iff. split.
  - intros ([f' df] & <- & Hin). exists df.
    now apply elem_of_map_to_list, list_elem_of_In.
  - intros [df H]. exists (f, df). split; [reflexivity|].
    now apply list_elem_of_In, elem_of_map_to_list.
Qed.

End Names.

(** X8.  A coin that has been saved is among the saved coins under its
    market code, provided the code has no underscore, and the file name made
    from that code is the name of the file the coin was saved to. *)
Theorem saved_coin_is_listed (coin : string) (df : DataFrame) (w : World) :
  ~ In "_"%char (chars (split_0 coin)) ->
  In (split_0 coin) (load_saved_coins (save_coin_data coin df w))
  /\ file_name (split_0 coin) = file_name coin.
Proof.
  intros Hno. split; [|apply file_name_inj, split_0_idem].
  unfold load_saved_coins. apply List.in_map_iff.
  exists (file_name coin). split.
  - unfold file_name. now apply split_first_append.
  - apply List.filter_In. split.
    + apply listdir_spec. exists df. unfold save_coin_data. simpl.
      apply lookup_insert_eq.
    + unfold file_name. apply endswith_append.
Qed.

Lemma saved_coin_is_listed_witness :
  In "KRW-BTC"%string (load_saved_coins (save_coin_data btc page fresh))
  /\ file_name "KRW-BTC" = file_name btc.
Proof.
  apply (saved_coin_is_listed btc page fresh).
  vm_compute. intros H. repeat (destruct H as [H | H]; [discriminate H|]). exact H.
Defined.

(** X9.  Every coin of the fetched list is made from a market of the answer
    whose code starts with "KRW", and when that code has no blank it is what
    [split(' ')[0]] gives back, so the coin's file is named after the code;
    an answer with another status than 200 gives the empty list. *)
Theorem coin_list_names_krw_markets (src : Source) (w : World) :
  (forall coin, In coin (fetch_coin_list src w).1 ->
     status_code (market_all src (requests w)) = 200
     /\ exists info,
          In info (json (market_all src (requests w)))
          /\ String.prefix "KRW" (market info) = true
          /\ coin = (market info ++ " (" ++ korean_name info ++ ")")%string
          /\ (~ In " "%char (chars (market info)) ->
                split_0 coin = market info
                /\ file_name coin = (market info ++ "_data.csv")%string))
  /\ (status_code (market_all src (requests w)) <> 200 ->
        (fetch_coin_list src w).1 = []).
Proof.
  unfold fetch_coin_list. split.
  - intros coin. destruct (status_code _ =? 200) eqn:E; [|intros []].
    cbn [fst]. intros Hin. apply Z.eqb_eq in E. split; [exact E|].
    apply List.in_map_iff in Hin. destruct Hin as (info & <- & Hin).
    apply List.filter_In in Hin. destruct Hin as [Hin Hkrw].
    exists info. split; [exact Hin|]. split; [exact Hkrw|]. split; [reflexivity|].
    intros Hno. unfold file_name.
    change ((market info ++ " (" ++ korean_name info ++ ")")%string)
      with ((market info ++ String " " ("(" ++ korean_name info ++ ")"))%string).
    now rewrite (split_0_append _ _ Hno).
  - intros H. apply Z.eqb_neq in H. now rewrite H.
Qed.

Lemma coin_list_names_krw_markets_witness :
  (fetch_coin_list (eth_answers 200) fresh).1 = [btc; eth; xrp]
  /\ forall coin, In coin [btc; eth; xrp] ->
       status_code (market_all (eth_answers 200) (requests fresh)) = 200.
Proof.
  split; [reflexivity|]. intros coin Hin.
  destruct (coin_list_names_krw_markets (eth_answers 200) fresh) as [H _].
  now destruct (H coin Hin).
Defined.

(** * More of the analysis *)

Local Open Scope Q_scope.

(** X10.  With no period selected the input-error dialog is shown.  For a
    frame with rows, every selected period other than ['daily'] ends in an
    [AttributeError]: the weekly and the monthly result are series, on which
    [calculate_distribution] asks for [columns], and any other period makes
    the analysis hand back [None]. *)
Theorem other_periods_raise (loaded : DataFrame) (period : string) :
  analyze_and_visualize loaded "" = Return InputErrorDialog
  /\ (loaded <> [] ->
      period <> ""%string ->
      period <> "daily"%string ->
      analyze_and_visualize loaded period = Raise AttributeError).
Proof.
  split; [reflexivity|].
  intros Hrows Hsel Hperiod. unfold analyze_and_visualize.
  apply String.eqb_neq in Hsel. rewrite Hsel.
  destruct loaded as [|c rest]; [congruence|]. simpl empty. cbv iota.
  unfold analyze_periodic_distribution. cbn [rows empty].
  apply String.eqb_neq in Hperiod. rewrite Hperiod.
  destruct (String.eqb period "weekly").
  - cbn [snd].
    destruct (analysis_empty (ASeries (resample_returns W_MON (c :: rest)))) eqn:E.
    + apply series_empty_iff in E. discriminate E.
    + reflexivity.
  - destruct (String.eqb period "monthly"); cbn [snd]; [|reflexivity].
    destruct (analysis_empty (ASeries (resample_returns M_END (c :: rest)))) eqn:E.
    + apply series_empty_iff in E. discriminate E.
    + reflexivity.
Qed.

Lemma other_periods_raise_witness :
  analyze_and_visualize [candle 1 100; candle 2 110; candle 9 99] "monthly"
  = Raise AttributeError.
Proof.
  apply (proj2 (other_periods_raise [candle 1 100; candle 2 110; candle 9 99] "monthly"));
    discriminate.
Defined.

(** X11.  A ['return'] column without a single number makes
    [calculate_distribution] raise [ValueError] (the floor of NaN); this is
    what the daily analysis of any one-candle series runs into. *)
Theorem column_without_number_raises :
  (forall (returns : list Float) (b : Q),
      numbers returns = [] ->
      calculate_distribution (frame_of returns) b = Raise ValueError)
  /\ (forall c : Candle, analyze_and_visualize [c] "daily" = Raise ValueError).
Proof.
  split.
  - intros returns b H. unfold calculate_distribution, frame_of. cbn [return_col].
    unfold col_min, col_max. rewrite H. reflexivity.
  - intros c. reflexivity.
Qed.

Lemma column_without_number_raises_witness :
  calculate_distribution (frame_of [NaN; NaN]) (1 # 2) = Raise ValueError.
Proof. apply (proj1 column_without_number_raises). reflexivity. Defined.

(** X12.  Cells that are NaN have no influence on the distribution: it is
    that of the numbers of the column alone. *)
Theorem nan_cells_are_ignored (returns : list Float) (b : Q) :
  calculate_distribution (frame_of returns) b
  = calculate_distribution (frame_of (map Some (numbers returns))) b.
Proof.
  assert (H : numbers (map Some (numbers returns)) = numbers returns).
  { induction (numbers returns) as [|q l IH]; simpl; [reflexivity | now rewrite IH]. }
  unfold calculate_distribution, frame_of, col_min, col_max, histogram_density,
    histogram_counts. cbn [return_col]. now rewrite H.
Qed.

(** X13.  With the default bin size 1 the bounds of the histogram cover
    every number of the column and are tight: the lower bound is an integer,
    at most the minimum and less than 1 below it, the upper bound an
    integer, at least the maximum and less than 1 above it. *)
Theorem bounds_cover_returns (returns : list Float) (lo hi : Q) :
  col_min returns = Some lo ->
  col_max returns = Some hi ->
  (forall x, In x (numbers returns) -> floor_to 1 lo <= x /\ x <= ceil_to 1 hi)
  /\ floor_to 1 lo == inject_Z (Qfloor lo)
  /\ ceil_to 1 hi == inject_Z (Qceiling hi)
  /\ lo - 1 < floor_to 1 lo /\ floor_to 1 lo <= lo
  /\ hi <= ceil_to 1 hi /\ ceil_to 1 hi < hi + 1.
Proof.
  intros Hmin Hmax.
  assert (Hb : 0 < 1) by reflexivity.
  pose proof (floor_to_le 1 Hb lo) as Hfl.
  pose proof (le_ceil_to 1 Hb hi) as Hce.
  destruct (numbers_bounds returns lo hi Hmin Hmax) as [_ Hbounds].
  assert (E1 : lo / 1 == lo) by field. assert (E2 : hi / 1 == hi) by field.
  assert (Efl : floor_to 1 lo == inject_Z (Qfloor lo)).
  { unfold floor_to. rewrite (Qfloor_comp _ _ E1). ring. }
  assert (Ece : ceil_to 1 hi == inject_Z (Qceiling hi)).
  { unfold ceil_to. rewrite (Qceiling_comp _ _ E2). ring. }
  split; [|split; [exact Efl | split; [exact Ece |
    split; [|split; [exact Hfl | split; [exact Hce|]]]]]].
  - intros x Hx. destruct (Hbounds x Hx). split; eapply Qle_trans; eassumption.
  - rewrite Efl. pose proof (Qlt_floor lo) as H.
    rewrite inject_Z_plus in H. change (inject_Z 1) with 1 in H.
    set (t := inject_Z (Qfloor lo)) in *. lra.
  - rewrite Ece. pose proof (Qceiling_lt hi) as H.
    unfold Z.sub in H. rewrite inject_Z_plus, inject_Z_opp in H.
    change (inject_Z 1) with 1 in H.
    set (t := inject_Z (Qceiling hi)) in *. lra.
Qed.

Lemma bounds_cover_returns_witness :
  floor_to 1 (-(7 # 4)) == -2 /\ ceil_to 1 (10 # 3) == 4
  /\ floor_to 1 (-(7 # 4)) <= -(7 # 4) /\ 10 # 3 <= ceil_to 1 (10 # 3).
Proof.
  destruct (bounds_cover_returns [Some (10 # 3); NaN; Some (-(7 # 4))] (-(7 # 4)) (10 # 3))
    as (_ & E1 & E2 & _ & H1 & H2 & _); try reflexivity.
  split; [rewrite E1; reflexivity|]. split; [rewrite E2; reflexivity|].
  now split.
Defined.

Lemma combine_cons_of_lengths {A B} (la : list A) (lb : list B) (n : nat) :
  length la = S n -> length lb = S n ->
  exists p d, combine la lb = p :: d /\ map snd (p :: d) = lb.
Proof.
  intros Ha Hb. destruct la as [|x la]; [discriminate|].
  destruct lb as [|y lb]; [discriminate|].
  exists (x, y), (combine la lb). split; [reflexivity|].
  simpl. f_equal. apply map_snd_combine. simpl in Ha, Hb. congruence.
Qed.

Section Chart.

Variable returns : list Float.
Variables b lo hi : Q.
Hypothesis b_pos : 0 < b.
Hypothesis Hmin : col_min returns = Some lo.
Hypothesis Hmax : col_max returns = Some hi.

Lemma no_bins_when_bounds_meet :
  ~ floor_to b lo < ceil_to b hi ->
  calculate_distribution (frame_of returns) b = Return [].
Proof.
  intros Hmeet.
  rewrite (calculate_distribution_shape returns b lo hi b_pos Hmin Hmax).
  pose proof (grid_ends_at_upper returns b lo hi b_pos Hmin Hmax) as Hend.
  destruct (Z.to_nat (Qceiling (hi / b) - Qfloor (lo / b))) as [|m'] eqn:Em;
    [reflexivity|].
  exfalso. apply Hmeet. rewrite <- Hend.
  assert (H : 0 < inject_Z (Z.of_nat (S m')) * b).
  { apply Qmult_lt_0_compat; [|exact b_pos].
    change 0 with (inject_Z 0). rewrite <- Zlt_Qlt. lia. }
  set (t := inject_Z (Z.of_nat (S m')) * b) in *. lra.
Qed.

Lemma bins_when_bounds_differ :
  floor_to b lo < ceil_to b hi ->
  exists p d,
    calculate_distribution (frame_of returns) b = Return (p :: d)
    /\ sumQ (map snd (p :: d)) == 100.
Proof.
  intros Hlt.
  pose proof (calculate_distribution_shape returns b lo hi b_pos Hmin Hmax) as Hshape.
  pose proof (mass_is_100 returns b lo hi b_pos Hmin Hmax Hlt) as Hmass.
  pose proof (labels_length b lo hi) as Hlab.
  pose proof (distribution_length returns b lo hi b_pos) as Hdis.
  destruct (bins_exist returns b lo hi b_pos Hmin Hmax Hlt) as [m' Em].
  assert (HB : exists n,
             length (bins_of (grid (floor_to b lo) b
                       (S (Z.to_nat (Qceiling (hi / b) - Qfloor (lo / b)))))) = S n).
  { rewrite Em, grid_shape. simpl. eauto. }
  destruct HB as [n HB]. rewrite HB in Hlab, Hdis.
  destruct (combine_cons_of_lengths _ _ n Hlab Hdis) as (p & d & Hc & Hs).
  exists p, d. rewrite Hshape, Hc. split; [reflexivity|].
  rewrite Hs. exact Hmass.
Qed.

End Chart.

Lemma daily_column_numbers (c0 c1 : Candle) (rest : DataFrame) :
  numbers (daily_column (c0 :: c1 :: rest)) <> [].
Proof.
  unfold daily_column.
  replace (map (fun c => Some (trade_price c)) (c0 :: c1 :: rest))
    with (map Some (trade_price c0 :: trade_price c1 :: map trade_price rest))
    by (simpl; now rewrite List.map_map).
  rewrite pct_change_prices. discriminate.
Qed.

(** X14.  The daily chart of a series of two or more candles with non-zero
    closes is never an exception and never the error dialog: it is the "no
    data" text or a chart with at least one bar, and the bars of a chart add
    up to 100. *)
Theorem daily_chart_of_two_or_more (loaded : DataFrame) :
  (2 <= length loaded)%nat ->
  Forall (fun c => ~ trade_price c == 0) loaded ->
  analyze_and_visualize loaded "daily" = Return NoDataText
  \/ exists p d,
       analyze_and_visualize loaded "daily" = Return (Bars (p :: d))
       /\ sumQ (map snd (p :: d)) == 100.
Proof.
  intros Hlen _.
  destruct loaded as [|c0 [|c1 rest]]; simpl in Hlen; try lia.
  unfold analyze_and_visualize, analyze_periodic_distribution. simpl empty.
  cbv iota. cbn [String.eqb Ascii.eqb Bool.eqb andb snd rows analysis_empty empty].
  assert (Hcalc : calculate_distribution
                    (AFrame (mkFrame (c0 :: c1 :: rest)
                       (Some (daily_column (c0 :: c1 :: rest))))) 1
                  = calculate_distribution (frame_of (daily_column (c0 :: c1 :: rest))) 1)
    by reflexivity.
  rewrite Hcalc.
  destruct (col_min_max _ (daily_column_numbers c0 c1 rest))
    as (lo & hi & Hmin & Hmax & _).
  destruct (Qlt_le_dec (floor_to 1 lo) (ceil_to 1 hi)) as [Hlt | Hge].
  - right.
    destruct (bins_when_bounds_differ _ 1 lo hi eq_refl Hmin Hmax Hlt)
      as (p & d & -> & Hsum).
    exists p, d. split; [reflexivity | exact Hsum].
  - left.
    rewrite (no_bins_when_bounds_meet _ 1 lo hi eq_refl Hmin Hmax); [reflexivity|].
    now apply Qle_not_lt.
Qed.

Lemma daily_chart_of_two_or_more_witness :
  analyze_and_visualize [candle 1 100; candle 2 110; candle 3 99] "daily"
    = Return NoDataText
  \/ exists p d,
       analyze_and_visualize [candle 1 100; candle 2 110; candle 3 99] "daily"
         = Return (Bars (p :: d))
       /\ sumQ (map snd (p :: d)) == 100.
Proof.
  apply daily_chart_of_two_or_more.
  - simpl. lia.
  - repeat constructor; intros H; discriminate H.
Defined.

Lemma constant_ratios (p : Q) (qs : list Q) :
  ~ p == 0 ->
  forall prev,
    prev == p ->
    Forall (fun q => q == p) qs ->
    forall x, In x (numbers (times_100 (ratios prev qs))) -> x == 0.
Proof.
  intros Hp. induction qs as [|q qs IH]; intros prev Hprev Hall x Hx; [destruct Hx|].
  inversion Hall as [|? ? Hq Hqs]; subst.
  simpl in Hx. destruct Hx as [<- | Hx].
  - rewrite Hq, Hprev. now field.
  - exact (IH q Hq Hqs x Hx).
Qed.

(** X15.  A series of two or more candles that all close at the same
    non-zero price shows the "no data" text: every return is 0, the bounds
    of the histogram meet at 0 and there is no bin. *)
Theorem constant_closes_show_no_data (loaded : DataFrame) (p : Q) :
  (2 <= length loaded)%nat ->
  ~ p == 0 ->
  Forall (fun c => trade_price c == p) loaded ->
  analyze_and_visualize loaded "daily" = Return NoDataText.
Proof.
  intros Hlen Hp Hall.
  destruct loaded as [|c0 [|c1 rest]]; simpl in Hlen; try lia.
  unfold analyze_and_visualize, analyze_periodic_distribution. simpl empty.
  cbv iota. cbn [String.eqb Ascii.eqb Bool.eqb andb snd rows analysis_empty empty].
  assert (Hcalc : calculate_distribution
                    (AFrame (mkFrame (c0 :: c1 :: rest)
                       (Some (daily_column (c0 :: c1 :: rest))))) 1
                  = calculate_distribution (frame_of (daily_column (c0 :: c1 :: rest))) 1)
    by reflexivity.
  rewrite Hcalc.
  destruct (col_min_max _ (daily_column_numbers c0 c1 rest))
    as (lo & hi & Hmin & Hmax & Hlo & Hhi & _).
  assert (Hzero : forall x, In x (numbers (daily_column (c0 :: c1 :: rest))) -> x == 0).
  { unfold daily_column.
    replace (map (fun c => Some (trade_price c)) (c0 :: c1 :: rest))
      with (map Some (trade_price c0 :: map trade_price (c1 :: rest)))
      by (simpl; now rewrite List.map_map).
    rewrite pct_change_prices.
    inversion Hall as [|? ? H0 Hrest]; subst.
    intros x Hx.
    change (In x (numbers (times_100
                    (ratios (trade_price c0) (map trade_price (c1 :: rest)))))) in Hx.
    revert x Hx.
    apply (constant_ratios p _ Hp (trade_price c0) H0).
    apply List.Forall_forall. intros q Hq. apply List.in_map_iff in Hq.
    destruct Hq as (c & <- & Hc). rewrite List.Forall_forall in Hrest.
    now apply Hrest. }
  rewrite (no_bins_when_bounds_meet _ 1 lo hi eq_refl Hmin Hmax); [reflexivity|].
  assert (Efl : floor_to 1 lo == 0).
  { unfold floor_to. assert (E : lo / 1 == inject_Z 0) by (rewrite (Hzero lo Hlo); reflexivity).
    rewrite (Qfloor_comp _ _ E), Qfloor_Z. reflexivity. }
  assert (Ece : ceil_to 1 hi == 0).
  { unfold ceil_to. assert (E : hi / 1 == inject_Z 0) by (rewrite (Hzero hi Hhi); reflexivity).
    rewrite (Qceiling_comp _ _ E), Qceiling_Z. reflexivity. }
  rewrite Efl, Ece. apply Qlt_irrefl.
Qed.

Lemma constant_closes_show_no_data_witness :
  analyze_and_visualize [candle 1 250; candle 2 250; candle 5 250; candle 6 250] "daily"
  = Return NoDataText.
Proof.
  apply (constant_closes_show_no_data _ 250).
  - simpl. lia.
  - intros H. discriminate H.
  - repeat constructor; reflexivity.
Defined.

Section Shares.

Variables b T : Q.
Hypothesis b_nz : ~ b == 0.
Hypothesis T_nz : ~ T == 0.
Variable count : Bin -> Z.

Lemma shares_of_bins (bins : list Bin) :
  forall (db : list Q) (labels : list string),
    length db = length bins ->
    length labels = length bins ->
    Forall (fun d => d == b) db ->
    Forall2 (fun bin p => p.2 == inject_Z (count bin) * 100 / T) bins
      (combine labels
         (map (fun d => d * 100 * b)
            (map (fun p => inject_Z p.1 / p.2 / T) (combine (map count bins) db)))).
Proof.
  induction bins as [|bin bins IH]; intros [|d db] [|l labels] Hdb Hlab Hall;
    simpl in Hdb, Hlab; try discriminate; [constructor|].
  inversion Hall as [|? ? Hd Hrest]; subst. simpl. constructor.
  - simpl. rewrite Hd. now field.
  - apply IH; [lia | lia | exact Hrest].
Qed.

End Shares.

Lemma observations_bounds (a : list Q) (bin : Bin) :
  (0 <= observations a bin <= Z.of_nat (length a))%Z.
Proof.
  unfold observations. pose proof (List.filter_length_le (in_bin bin) a). lia.
Qed.

(** X16.  With the default bin size 1 every bar is the share of the
    column's numbers that fall into its bin, in percent: the count of the
    bin times 100 over the number of numbers, a value between 0 and 100. *)
Theorem bar_is_share_of_observations (returns : list Float) (lo hi : Q) :
  col_min returns = Some lo ->
  col_max returns = Some hi ->
  floor_to 1 lo < ceil_to 1 hi ->
  let edges := arange (floor_to 1 lo) (ceil_to 1 hi + 1) 1 in
  let total := inject_Z (Z.of_nat (length (numbers returns))) in
  exists d,
    calculate_distribution (frame_of returns) 1 = Return d
    /\ Forall2 (fun bin p =>
                  p.2 == inject_Z (observations (numbers returns) bin) * 100 / total
                  /\ 0 <= inject_Z (observations (numbers returns) bin) * 100 / total
                  /\ inject_Z (observations (numbers returns) bin) * 100 / total <= 100)
         (bins_of edges) d.
Proof.
  intros Hmin Hmax Hlt edges total. subst edges.
  assert (Hb : 0 < 1) by reflexivity.
  rewrite (arange_is_grid returns 1 lo hi Hb Hmin Hmax).
  eexists. split; [apply (calculate_distribution_shape returns 1 lo hi Hb Hmin Hmax)|].
  destruct (bins_exist returns 1 lo hi Hb Hmin Hmax Hlt) as [m' Em].
  destruct (numbers_bounds returns lo hi Hmin Hmax) as [Hne Hbounds].
  assert (Htot : sumZ (histogram_counts returns
                   (grid (floor_to 1 lo) 1
                      (S (Z.to_nat (Qceiling (hi / 1) - Qfloor (lo / 1))))))
                 = Z.of_nat (length (numbers returns))).
  { unfold histogram_counts.
    exact (total_count returns 1 lo hi Hb Hmin Hmax (numbers returns) m' Em Hbounds). }
  assert (Hpos : (0 < Z.of_nat (length (numbers returns)))%Z).
  { destruct (numbers returns); [congruence | simpl; lia]. }
  assert (HT : ~ total == 0).
  { subst total. intros E. change 0 with (inject_Z 0) in E.
    apply (proj1 (inject_Z_injective _ _)) in E. lia. }
  assert (HTpos : 0 < total).
  { subst total. change 0 with (inject_Z 0). now rewrite <- Zlt_Qlt. }
  assert (Hbz : ~ 1 == 0) by (intros E; discriminate E).
  unfold histogram_density. rewrite Htot.
  rewrite (counts_in_bins returns 1 lo hi Hb).
  pose proof (shares_of_bins 1 total Hbz HT (observations (numbers returns))
                (bins_of (grid (floor_to 1 lo) 1
                   (S (Z.to_nat (Qceiling (hi / 1) - Qfloor (lo / 1))))))
                _ _ (diffQ_length _) (labels_length 1 lo hi)
                (edges_width (floor_to 1 lo) 1 _ 0%nat)) as Hshares.
  eapply Forall2_impl; [exact Hshares|].
  intros bin p Hp. split; [exact Hp|].
  destruct (observations_bounds (numbers returns) bin) as [H0 H1].
  rewrite Zle_Qle in H0, H1. change (inject_Z 0) with 0 in H0.
  fold total in H1.
  set (o := inject_Z (observations (numbers returns) bin)) in *.
  split.
  - apply Qle_shift_div_l; [exact HTpos | lra].
  - apply Qle_shift_div_r; [exact HTpos | lra].
Qed.

Lemma bar_is_share_of_observations_witness :
  exists d,
    calculate_distribution (frame_of [Some (-1); Some 0; Some 1]) 1 = Return d
    /\ length d = 2%nat.
Proof.
  destruct (bar_is_share_of_observations [Some (-1); Some 0; Some 1] (-1) 1)
    as (d & Hd & Hall); try reflexivity.
  exists d. split; [exact Hd|].
  apply Forall2_length in Hall. rewrite <- Hall. reflexivity.
Defined.

(** * More of the aggregator *)

Local Open Scope Z_scope.

Section Latest.

Lemma insert_by_date_In (c x : Candle) (df : DataFrame) :
  In x (insert_by_date c df) <-> x = c \/ In x df.
Proof.
  induction df as [|d rest IH]; simpl; [intuition congruence|].
  destruct (candle_date_time_kst d <=? candle_date_time_kst c); simpl;
    rewrite ?IH; intuition congruence.
Qed.

Lemma insert_by_date_sorted (c : Candle) (df : DataFrame) :
  StronglySorted not_later df -> StronglySorted not_later (insert_by_date c df).
Proof.
  induction 1 as [|d rest Hrest IH Hd]; simpl; [repeat constructor|].
  destruct (candle_date_time_kst d <=? candle_date_time_kst c) eqn:E.
  - apply Z.leb_le in E. constructor; [exact IH|].
    apply List.Forall_forall. intros x Hx. apply insert_by_date_In in Hx.
    destruct Hx as [-> | Hx]; [exact E|].
    rewrite List.Forall_forall in Hd. now apply Hd.
  - apply Z.leb_gt in E. constructor; [now constructor|].
    constructor; [unfold not_later; lia|].
    rewrite List.Forall_forall in *. intros x Hx. specialize (Hd x Hx).
    unfold not_later in *. lia.
Qed.

Lemma sort_by_date_spec (df : DataFrame) :
  StronglySorted not_later (sort_by_date df)
  /\ forall x, In x (sort_by_date df) <-> In x df.
Proof.
  unfold sort_by_date.
  assert (H : forall acc,
             StronglySorted not_later acc ->
             StronglySorted not_later
               (fold_left (fun acc c => insert_by_date c acc) df acc)
             /\ forall x, In x (fold_left (fun acc c => insert_by_date c acc) df acc)
                          <-> In x df \/ In x acc).
  { induction df as [|c rest IH]; intros acc Hacc; simpl; [intuition|].
    destruct (IH (insert_by_date c acc) (insert_by_date_sorted c acc Hacc)) as [H1 H2].
    split; [exact H1|]. intros x. rewrite H2, insert_by_date_In. intuition. }
  destruct (H [] (SSorted_nil _)) as [H1 H2]. split; [exact H1|].
  intros x. rewrite H2. simpl. intuition.
Qed.

Lemma sorted_filter_rev (f : Candle -> bool) (sorted : DataFrame) :
  StronglySorted not_later sorted ->
  match List.filter f (rev sorted) with
  | [] => forall c, In c sorted -> f c = false
  | c :: _ =>
      In c sorted /\ f c = true
      /\ forall c', In c' sorted -> f c' = true -> not_later c' c
  end.
Proof.
  induction 1 as [|d rest Hrest IH Hd]; [intros c []|].
  simpl rev. rewrite List.filter_app.
  destruct (List.filter f (rev rest)) as [|c tl] eqn:E.
  - simpl. destruct (f d) eqn:Ed; simpl.
    + split; [now left|]. split; [exact Ed|].
      intros c' [<- | Hc'] Hf; [unfold not_later; lia|].
      rewrite (IH c' Hc') in Hf. discriminate Hf.
    + intros c [<- | Hc]; [exact Ed | now apply IH].
  - simpl. destruct IH as (Hin & Hf & Hmax).
    split; [now right|]. split; [exact Hf|].
    intros c' [<- | Hc'] Hf'; [|now apply Hmax].
    rewrite List.Forall_forall in Hd. now apply Hd.
Qed.

Lemma nth_error_map_seq {A} (g : nat -> A) (n : nat) :
  forall s i y, nth_error (map g (seq s n)) i = Some y -> y = g (s + i)%nat.
Proof.
  induction n as [|n IH]; intros s i y H; [destruct i; discriminate H|].
  destruct i as [|i]; simpl in H.
  - injection H as <-. now rewrite Nat.add_0_r.
  - apply IH in H. rewrite H. f_equal. lia.
Qed.

End Latest.

(** X17.  An entry of the resampled closes stands for the period that many
    steps after the period of the earliest candle: it carries that period's
    label, it is NaN exactly when no candle falls into the period, and
    otherwise it is the close of a candle of the period than which none of
    the period is later. *)
Theorem period_close_is_latest (r : Rule) (df : DataFrame) (i : nat) (lbl : Z)
    (v : Float) :
  nth_error (resample_last r df) i = Some (lbl, v) ->
  let k := period_of r (min_date df) + Z.of_nat i in
  lbl = label_of r k
  /\ match v with
     | None => forall c, In c df -> period_of r (candle_date_time_kst c) <> k
     | Some p =>
         exists c, In c df /\ period_of r (candle_date_time_kst c) = k
           /\ trade_price c = p
           /\ forall c', In c' df -> period_of r (candle_date_time_kst c') = k ->
                candle_date_time_kst c' <= candle_date_time_kst c
     end.
Proof.
  intros H k. destruct df as [|c0 rest]; [destruct i; discriminate H|].
  unfold resample_last, periods in H. rewrite List.map_map in H.
  apply nth_error_map_seq in H. simpl Nat.add in H. injection H as -> ->.
  split; [reflexivity|].
  destruct (sort_by_date_spec (c0 :: rest)) as [Hsorted Hin].
  pose proof (sorted_filter_rev
                (fun c => period_of r (candle_date_time_kst c) =? k)
                (sort_by_date (c0 :: rest)) Hsorted) as Hlast.
  unfold last_in. fold k.
  destruct (List.filter _ (rev (sort_by_date (c0 :: rest)))) as [|c tl].
  - intros c Hc. apply Hin in Hc. apply Hlast in Hc. now apply Z.eqb_neq in Hc.
  - destruct Hlast as (Hc & Hk & Hmax). exists c.
    split; [now apply Hin|]. split; [now apply Z.eqb_eq|]. split; [reflexivity|].
    intros c' Hc' Hk'. apply (Hmax c'); [now apply Hin | now apply Z.eqb_eq].
Qed.

Lemma period_close_is_latest_witness :
  exists c, In c [candle 0 100; candle 1 105; candle 15 110]
            /\ trade_price c = inject_Z 105.
Proof.
  destruct (period_close_is_latest W_MON [candle 0 100; candle 1 105; candle 15 110]
              0%nat 4 (Some (inject_Z 105))) as (_ & c & Hc & _ & Hp & _).
  - reflexivity.
  - exists c. now split.
Defined.

(** * The labels of the default bin size *)

Local Open Scope Q_scope.

Section IntegerLabels.

Lemma Qeq_bool_comp x y : x == y -> Qeq_bool x 0 = Qeq_bool y 0.
Proof.
  intros E. destruct (Qeq_bool y 0) eqn:Ey.
  - apply Qeq_bool_iff. apply Qeq_bool_iff in Ey. now rewrite E.
  - apply Qeq_bool_false. intros H. apply Qeq_bool_neq in Ey. apply Ey.
    now rewrite <- E.
Qed.

Lemma label_comp x y : x == y -> label x = label y.
Proof.
  intros E. unfold label, format_0f.
  rewrite (Qeq_bool_comp x y E), (Qltb_comp x y 0 0 E (Qeq_refl 0)).
  assert (Ea : Qabs x == Qabs y) by now rewrite E.
  now rewrite (round_half_even_comp _ _ Ea).
Qed.

Lemma round_half_even_integer (z : Z) : round_half_even (inject_Z z) = z.
Proof.
  unfold round_half_even. rewrite Qfloor_Z.
  assert (E : Qltb (inject_Z z - inject_Z z) (1 # 2) = true).
  { apply Qltb_lt. set (t := inject_Z z). lra. }
  now rewrite E.
Qed.

(** The label of an integer edge. *)
Lemma label_integer (z : Z) :
  label (inject_Z z)
  = if (z =? 0)%Z then "0%"%string
    else if (0 <? z)%Z then ("+" ++ digits z ++ "%")%string
    else ("-" ++ digits (- z) ++ "%")%string.
Proof.
  destruct (label_format (inject_Z z)) as (H0 & Hpos & Hneg).
  destruct (z =? 0)%Z eqn:E0.
  - apply Z.eqb_eq in E0. subst z. apply H0. reflexivity.
  - apply Z.eqb_neq in E0. destruct (0 <? z)%Z eqn:E1.
    + apply Z.ltb_lt in E1. rewrite Hpos.
      * now rewrite round_half_even_integer.
      * change 0 with (inject_Z 0). now rewrite <- Zlt_Qlt.
    + apply Z.ltb_ge in E1. rewrite Hneg.
      * rewrite <- inject_Z_opp. now rewrite round_half_even_integer.
      * change 0 with (inject_Z 0). rewrite <- Zlt_Qlt. lia.
Qed.

Lemma to_uint_not_nil (n : N) : N.to_uint n <> Decimal.Nil.
Proof.
  destruct n as [|p]; [discriminate|]. intros H.
  pose proof (DecimalN.Unsigned.of_to (Npos p)) as E. rewrite H in E.
  discriminate E.
Qed.

Lemma digits_inj (a c : Z) :
  (0 <= a)%Z -> (0 <= c)%Z -> digits a = digits c -> a = c.
Proof.
  intros Ha Hc H. unfold digits in H.
  apply (f_equal NilZero.uint_of_string) in H.
  rewrite !NilZero.usu in H by apply to_uint_not_nil.
  injection H as H'. apply (f_equal N.of_uint) in H'.
  rewrite !DecimalN.Unsigned.of_to in H'. lia.
Qed.

Lemma signed_digits_inj (sign : ascii) (a c : Z) :
  (0 <= a)%Z -> (0 <= c)%Z ->
  String sign (digits a ++ "%") = String sign (digits c ++ "%") -> a = c.
Proof.
  intros Ha Hc H. injection H as H'. apply append_inj_r in H'.
  now apply digits_inj.
Qed.

Lemma label_integer_inj (a c : Z) :
  label (inject_Z a) = label (inject_Z c) -> a = c.
Proof.
  rewrite !label_integer.
  destruct (Z.eqb_spec a 0) as [Ea | Ea], (Z.eqb_spec c 0) as [Ec | Ec].
  - intros _. lia.
  - destruct (0 <? c)%Z; intros Hl; discriminate Hl.
  - destruct (0 <? a)%Z; intros Hl; discriminate Hl.
  - destruct (Z.ltb_spec 0 a) as [La | La], (Z.ltb_spec 0 c) as [Lc | Lc]; intros Hl.
    + apply (signed_digits_inj "+" a c); [lia | lia | exact Hl].
    + discriminate Hl.
    + discriminate Hl.
    + assert (- a = - c)%Z
        by (apply (signed_digits_inj "-"); [lia | lia | exact Hl]).
      lia.
Qed.

Lemma NoDup_map_inj {A B} (f : A -> B) (l : list A) :
  (forall x y, f x = f y -> x = y) -> List.NoDup l -> List.NoDup (map f l).
Proof.
  intros Hinj. induction 1 as [|x l Hx Hl IH]; simpl; constructor; [|exact IH].
  intros Hin. apply List.in_map_iff in Hin. destruct Hin as (y & Hy & Hin).
  apply Hinj in Hy. now subst y.
Qed.

Lemma removelast_grid (lower b : Q) (n : nat) :
  removelast (grid lower b (S n)) = grid lower b n.
Proof.
  unfold grid. rewrite List.seq_S, List.map_app. simpl.
  apply List.removelast_last.
Qed.

End IntegerLabels.

(** X18.  With the default bin size 1 no two bins of a distribution carry
    the same label. *)
Theorem default_labels_are_distinct (returns : list Float) :
  numbers returns <> [] ->
  exists d,
    calculate_distribution (frame_of returns) 1 = Return d
    /\ List.NoDup (map fst d).
Proof.
  intros Hne.
  destruct (col_min_max returns Hne) as (lo & hi & Hmin & Hmax & _).
  eexists.
  split; [apply (calculate_distribution_shape returns 1 lo hi eq_refl Hmin Hmax)|].
  rewrite map_fst_combine.
  - rewrite removelast_grid. unfold grid. rewrite List.map_map.
    rewrite (List.map_ext _
               (fun i => label (inject_Z (Qfloor (lo / 1) + Z.of_nat i)))).
    + apply NoDup_map_inj; [|apply List.seq_NoDup].
      intros x y H. apply label_integer_inj in H. lia.
    + intros i. apply label_comp. unfold floor_to.
      rewrite inject_Z_plus. ring.
  - rewrite (labels_length 1 lo hi).
    now rewrite (distribution_length returns 1 lo hi eq_refl).
Qed.

Lemma default_labels_are_distinct_witness :
  exists d,
    calculate_distribution (frame_of [Some (-(5 # 2)); NaN; Some (7 # 3)]) 1 = Return d
    /\ List.NoDup (map fst d).
Proof. apply default_labels_are_distinct. discriminate. Defined.

(** With a bin size below 1 labels do repeat: three edges round to 2. *)
Example half_percent_labels_repeat :
  map label [3 # 2; 2; 5 # 2] = ["+2%"; "+2%"; "+2%"]%string.
Proof. reflexivity. Qed.
